(* ===== verification/_CoqProject ===== *)
-Q . S2P
Prelude.v
JsValue.v
Mappers.v
Dom.v
Html.v
Controllers.v
Server.v
