(* ===== verification/Prelude.v ===== *)
(** * Exercise-Ajax-TV: a verified model of src/tvmaze.js

    The program is a browser script (jQuery and axios) that searches the
    TVMaze catalogue.  Its parts, in src/tvmaze.js:
    - the Show Mapper [getShowsByTerm] (lines 18-31) and the Episode
      Mapper [getEpisodesOfShow] (lines 85-96): each sends one GET with
      [axios.get], awaits it, and maps [response.data] into records;
    - the Show List Renderer [populateShows] (lines 36-60) and the Episode
      List Renderer [populateEpisodes] (lines 100-109): they empty a page
      region and append one element per record built from a template
      literal, the latter then shows [#episodesArea];
    - the Search Controller [searchForShowAndDisplay] with the submit
      handler of [#searchForm] (lines 67-78) and the Episode Controller
      [getEpisodesAndDisplay] with the delegated click handler of
      [#showsList] (lines 111-118): on a user event they call a mapper,
      await it, and pass its result to a renderer; the Episode Controller
      finds the show's id in the [data-show-id] attribute the Show List
      Renderer wrote into the card.
    The page regions (lines 3-6) are the only state that outlives a
    handler; the network is the only source of concurrency.

    ** Files
    - [Prelude] (this file): the completion type [res] of JavaScript
      operations (a value or a thrown [js_error]) as a stdpp monad, the
      state-with-exceptions monad [stres] handlers run in, [mapM] as
      [Array.prototype.map] with a throwing callback, the loop [st_for],
      reachability [star] with its invariant principle, the hint databases
      [tv] and [tv_rw] and the tactic [res_simpl].
    - [JsValue]: JavaScript values [jsval] (JSON payloads and object
      literals), property read [get_prop] (a [TypeError] on [undefined]
      and [null]), truthiness, ToString as template literals apply it, and
      the decimal numerals of safe integers ([number_to_string],
      [canonical_int]) with their round trip.
    - [Mappers]: modules [ShowMapper] and [EpisodeMapper], each mapper
      split at its [await] into the request it issues ([*_request]) and
      the continuation on the settled promise ([*_resume]), composed over
      the class [HttpClient]; [ApiSchema] decodes the TVMaze schema into
      typed records and [Records] holds the show and episode records of
      the spec; [ShowMapperSpec] and [EpisodeMapperSpec] prove them.
    - [Dom]: the page record [dom] (children of [#showsList] and
      [#episodesList] as the markup each element was built from, the
      visibility of [#episodesArea], the search box), the two renderers
      in [stres dom] with the card template reproduced character for
      character, jQuery's [.data] conversion [jq_getData] and the read of
      the card's first attribute [card_data_show_id], against the class
      [Browser] ([JSON.parse] and character-reference decoding, with the
      laws [BrowserLaws]).
    - [Html]: what [$(...)] does with the markup: the tokenizer of the
      HTML standard as a machine [step] that consumes one character and
      emits tokens, [run] over a string and [tokenize] with the end of
      input; the tree of open elements [tree_step] for properly nested
      markup; [.closest(cls)] and [.data(key)]; and [closest_show_id],
      line 112 on the parsed card.  [CardTokens] computes the tokens of a
      show card piece by piece, [ClosestSpec] proves the card theorems,
      [Injection] parses the card of a show whose name carries markup,
      [ItemTokens] parses the episode item of line 104.
    - [Controllers]: the world (page, outstanding requests with the
      continuation each resumes, the log of requests, unhandled
      rejections), the events (typing, submit, click on a card's Episodes
      button, a request settling with any outcome), the executable
      transition [handle], the relation [step] and [reachable].  The
      click reads the show id with [Html.closest_show_id].  [Traces]
      replays a trace against an effect on an observation ([replay]) and
      states the show list against the last-writer-wins register
      [last_render] of spec section 5 and the episodes view against
      [last_episodes].
    - [Server]: the TVMaze service of spec section 6 as a catalogue, the
      JSON it serves and the routing of both endpoints ([tvmaze_get]),
      the [HttpClient] instance [tvmaze_server]; the mappers against it
      ([MapperE2E]); the network answering each issued request from it
      ([server_settle]) and the event loop end to end ([LoopE2E]); the
      scenarios of spec section 8 ([E2EScenarios]).

    ** Theorems
    - Mappers (C1-C4): the complete input/output behaviour of each
      mapper's continuation on every outcome of its request (rejections
      propagate, a non-array body or an unreadable element throws a
      [TypeError], otherwise one record per element in order, the image
      being the medium image or the placeholder by truthiness), and the
      refinement of the spec's records on every body that follows the
      TVMaze schema.
    - Renderers (C5-C6): the region's content after rendering, element
      by element, and what a [TypeError] part-way leaves behind.
    - Controllers (C7-C12): the effect of each settling request on the
      page; the identifier round trip from a rendered card back to the
      request a click sends; the absence of ordering between searches
      (the last to settle wins) and the divergence from the spec's
      promise that the episodes area is hidden before a search is
      fetched.
    - Types (C13-C14): the records each mapper resolves to have exactly
      the four keys of the spec (and a string image when the response's
      image is well typed).
    - Markup (C15-C18): on a card whose fields cannot inject markup,
      [closest(".Show").data("show-id")] on the parsed card equals the
      read of its first attribute (so C9-C10 hold of the parsed card);
      the [<img>] carries the show's image and name as [src] and [alt];
      for every id [n], a name that closes the [alt] attribute and opens
      a [div.Show] with [data-show-id] [n] redirects the card's Episodes
      button to [n], the code_bug of lines 41-56; an episode item whose
      substitutions contain no [<] and no [&] is one [li] holding one
      text.
    - End to end (C19-C23): against the service, [getShowsByTerm]
      resolves to the records of the matching shows and
      [getEpisodesOfShow] to those of the show's episodes, the id
      surviving the URL of line 86; an id that is not a catalogued
      numeral ([undefined] included) gives an uncaught 404 rejection; a
      search typed, submitted and answered renders the matching shows
      and hides the episodes; a click on a card rendered from a
      catalogued show, once answered, renders that show's episodes.
    - Traces (C24-C25): over any sequence of events, [#showsList] is the
      last-writer-wins register of spec section 5 (the cards of the last
      search to settle successfully), and [#episodesList] with the
      visibility of [#episodesArea] is the register the settled episode
      requests write and successful searches hide.
    Mutants (mutants/) check that C1-C4 depend on the guard of line 28
    and on the fields of both object literals, C5 on the [empty()] of
    line 37, C15 on closing exactly the element an end tag names, C20 on
    the URL of line 86, C22 on the [hide()] of line 71 and C23 on the
    card the click reads.

    ** Bounds and choices
    Numbers are the safe integers ([|n| <= 2^53]), where
    [Number::toString] is the decimal numeral and [+s] parses it exactly;
    show ids, seasons and episode numbers from TVMaze are such numbers.
    [to_string] is therefore the decimal numeral and never the exponent
    form JavaScript uses from 1e21 on, which no safe integer reaches;
    the end-to-end theorems assume [js_safe] of the ids they send.
    Concurrency is modelled by letting any outstanding request settle at
    any step: the continuation that follows an [await] runs in microtasks
    no other event interleaves with, so each settle step is atomic.  No
    fuel is needed: every definition is structurally recursive, the
    tokenizer included (one step per character).  The card theorems of
    [Html] are proved by running the tokenizer on the template's fixed
    pieces with [vm_compute] and on the substitutions with lemmas on
    runs of plain text and of double-quoted values.

    ** Not modelled
    Every statement of src/tvmaze.js is modelled; the lines the map does
    not name are comments, blank lines and the directive ["use strict"]
    of line 1, which changes nothing on the paths the program takes (it
    only turns silent failures of sloppy mode into exceptions, and the
    program performs none).  Outside the program: the transport of
    axios (timeouts, redirects, the encoding of the query string, status
    codes other than the 404 and 400 of the service model); TVMaze's
    ranking of search results (a function of the term in [Server]) and
    its [score] field, a non-integral number; of the HTML parser, character references
    (left to [Browser], which the claims on parsed text exclude by
    hypothesis), DOCTYPE, CDATA, script and RCDATA content, the comment
    end [--!>], and
    the tree-construction repairs for mis-nested markup (implied end
    tags, formatting elements, tables), which only summaries that are
    not properly nested would reach, and which C15 excludes by
    hypothesis; the ancestors of [#showsList] in index.html, which are
    assumed to carry no class [Show]; the CSS and index.html, from which only the
    initial page is taken (no shows, no episodes, the episodes area
    hidden); non-integral numbers, [NaN] and the prototype members of
    objects, which the program never reads. *)

From stdpp Require Import base list list_monad strings.

(** ** JavaScript completions

    An operation of the program either completes normally with a value or
    throws.  Two kinds of exception reach the program: the [TypeError]
    raised by reading a property of [undefined] or [null] (or by calling a
    value that is not a function), and the rejection of an [axios.get]
    promise, which carries the HTTP status when the server answered. *)
Inductive js_error :=
  | TypeError
  | NetworkError (status : option Z).

Inductive res (A : Type) : Type :=
  | Ok (a : A)
  | Throw (e : js_error).
  Arguments Ok {A} a.
  Arguments Throw {A} e.

#[export] Instance res_ret : MRet res := fun _ a => Ok a.
#[export] Instance res_bind : MBind res := fun _ _ f m =>
  match m with Ok a => f a | Throw e => Throw e end.
#[export] Instance res_fmap : FMap res := fun _ _ f m =>
  match m with Ok a => Ok (f a) | Throw e => Throw e end.

Declare Scope tv_scope.
Delimit Scope tv_scope with tv.
Notation "'throw' e" := (Throw e) (at level 10) : tv_scope.
Notation "m 'catch' h" :=
  (match m with Ok a => Ok a | Throw e => h e end) (at level 20) : tv_scope.
Open Scope tv_scope.

Definition is_ok {A} (r : res A) : bool :=
  match r with Ok _ => true | Throw _ => false end.

Create HintDb tv.
Create Rewrite HintDb tv_rw.

Section ResLemmas.
Context {A B : Type}.

Lemma res_bind_ok (a : A) (f : A -> res B) : (Ok a ≫= f) = f a.
Proof. reflexivity. Qed.

Lemma res_bind_throw e (f : A -> res B) : (Throw e ≫= f) = Throw e.
Proof. reflexivity. Qed.

Lemma res_bind_Ok_inv (m : res A) (f : A -> res B) b :
  (m ≫= f) = Ok b -> exists a, m = Ok a /\ f a = Ok b.
Proof. destruct m; simpl; [eauto | discriminate]. Qed.

Lemma res_bind_Throw_inv (m : res A) (f : A -> res B) e :
  (m ≫= f) = Throw e -> m = Throw e \/ exists a, m = Ok a /\ f a = Throw e.
Proof. destruct m; simpl; [eauto | intros [= ->]; auto]. Qed.

(** [mapM] is [Array.prototype.map] with a callback that may throw: it
    calls the callback on each element from left to right and stops at
    the first exception. *)
Lemma mapM_res_Ok (f : A -> res B) (l : list A) (k : list B) :
  mapM f l = Ok k <-> Forall2 (fun x y => f x = Ok y) l k.
Proof.
  revert k; induction l as [|x l IH]; intros k; simpl.
  - split; [intros [= <-]; constructor | intros H; inversion H; reflexivity].
  - split.
    + destruct (f x) eqn:Hf; simpl; [|discriminate].
      destruct (mapM f l) eqn:Hl; simpl; [|discriminate].
      intros [= <-]. constructor; [done | by apply IH].
    + intros H; inversion H as [|? y ? k' Hy Hk]; subst.
      rewrite Hy; simpl. apply IH in Hk. by rewrite Hk.
Qed.

Lemma mapM_res_Throw_app (f : A -> res B) l1 k1 x l2 e :
  Forall2 (fun x y => f x = Ok y) l1 k1 -> f x = Throw e ->
  mapM f (l1 ++ x :: l2) = Throw e.
Proof.
  induction 1 as [|x1 y1 l1' k1' Hy _ IH]; intros Hx; simpl.
  - by rewrite Hx.
  - rewrite Hy; simpl. by rewrite IH.
Qed.

Lemma mapM_res_Throw (f : A -> res B) (l : list A) e :
  mapM f l = Throw e <->
  exists l1 x l2 k1, l = l1 ++ x :: l2 /\
  Forall2 (fun x y => f x = Ok y) l1 k1 /\ f x = Throw e.
Proof.
  split; [|intros (l1 & x & l2 & k1 & -> & Hall & Hx);
         by apply mapM_res_Throw_app with k1].
  induction l as [|x l IH]; simpl; [discriminate|].
  destruct (f x) as [y|e'] eqn:Hf; simpl.
  - destruct (mapM f l) as [k|e''] eqn:Hl; simpl; [discriminate|].
  intros [= ->]. destruct (IH eq_refl) as (l1 & z & l2 & k1 & -> & Hall & Hz).
  exists (x :: l1), z, l2, (y :: k1). simpl. auto.
  - intros [= ->]. exists [], x, l, []. simpl. auto.
Qed.

Lemma mapM_res_length (f : A -> res B) (l : list A) (k : list B) :
  mapM f l = Ok k -> length k = length l.
Proof. intros H%mapM_res_Ok. symmetry. by eapply Forall2_length. Qed.

Lemma mapM_res_map (f : A -> B) (l : list A) :
  mapM (fun x => Ok (f x)) l = Ok (map f l).
Proof. induction l as [|x l IH]; simpl; [done|]. by rewrite IH. Qed.
End ResLemmas.

#[export] Hint Rewrite @res_bind_ok @res_bind_throw : tv_rw.
#[export] Hint Resolve mapM_res_map : tv.

(** Normalise binds of concrete completions. *)
Ltac res_simpl := repeat (autorewrite with tv_rw in *; simpl in *).

(** ** State with exceptions

    A handler runs on the page's state and may throw part-way; what it
    changed before the exception stays changed, as DOM mutations do. *)
Definition stres (S A : Type) : Type := S -> S * res A.

#[export] Instance stres_ret {S} : MRet (stres S) := fun _ a s => (s, Ok a).
#[export] Instance stres_bind {S} : MBind (stres S) := fun _ _ f m s =>
  match m s with
  | (s', Ok a) => f a s'
  | (s', Throw e) => (s', Throw e)
  end.

Definition st_modify {S} (f : S -> S) : stres S unit := fun s => (f s, Ok tt).
Definition st_gets {S A} (f : S -> A) : stres S A := fun s => (s, Ok (f s)).
Definition st_lift {S A} (r : res A) : stres S A := fun s => (s, r).

(** [for (const x of xs) body(x)]. *)
Fixpoint st_for {S A} (xs : list A) (body : A -> stres S unit) : stres S unit :=
  match xs with
  | [] => mret tt
  | x :: xs => _ ← body x; st_for xs body
  end.

Section StresLemmas.
Context {S A : Type}.

Lemma stres_bind_run {B} (m : stres S A) (f : A -> stres S B) s :
  (m ≫= f) s = match m s with (s', Ok a) => f a s' | (s', Throw e) => (s', Throw e) end.
Proof. reflexivity. Qed.

(** A loop whose body only modifies the state and never throws is a
    left fold. *)
Lemma st_for_modify (xs : list A) (g : A -> S -> S) s :
  st_for xs (fun x => st_modify (g x)) s = (foldl (fun s x => g x s) s xs, Ok tt).
Proof. revert s; induction xs as [|x xs IH]; intros s; simpl; [done|]. apply IH. Qed.
End StresLemmas.

(** ** Reachability

    The reflexive-transitive closure of a step relation and the induction
    principle for invariants. *)
Section Star.
Context {A : Type} (R : A -> A -> Prop).

Inductive star : A -> A -> Prop :=
| star_refl a : star a a
| star_step a b c : R a b -> star b c -> star a c.

Lemma star_one a b : R a b -> star a b.
Proof. eauto using star. Qed.

Lemma star_trans a b c : star a b -> star b c -> star a c.
Proof. induction 1; eauto using star. Qed.

Lemma star_right a b c : star a b -> R b c -> star a c.
Proof. eauto using star_trans, star_one. Qed.

Lemma star_invariant (P : A -> Prop) :
  (forall a b, R a b -> P a -> P b) -> forall a b, star a b -> P a -> P b.
Proof. intros HR a b Hs. induction Hs; eauto. Qed.
End Star.

(** ** Strings *)

Lemma str_app_assoc (s1 s2 s3 : string) : (s1 +:+ s2) +:+ s3 = s1 +:+ (s2 +:+ s3).
Proof. induction s1 as [|c s1 IH]; [done|]. exact (f_equal (String c) IH). Qed.

Lemma str_app_nil_r (s : string) : s +:+ EmptyString = s.
Proof. induction s as [|c s IH]; [done|]. exact (f_equal (String c) IH). Qed.

(** Appending one character and then a string is appending the string
    with the character in front. *)
Lemma str_snoc_app (s t : string) c :
  (s +:+ String c EmptyString) +:+ t = s +:+ String c t.
Proof. by rewrite str_app_assoc. Qed.

#[export] Hint Rewrite str_app_nil_r str_snoc_app : tv_rw.

Lemma str_length_app (s t : string) : String.length (s +:+ t) = String.length s + String.length t.
Proof. induction s as [|c s IH]; [done|]. exact (f_equal S IH). Qed.
