(* ===== verification/JsValue.v ===== *)
(** * JavaScript values as the program sees them

    The values that flow through src/tvmaze.js: the JSON payloads axios
    decodes from the TVMaze responses, the object literals the two mappers
    build, and the strings the templates interpolate.  This file holds the
    value type [jsval], the three primitive operations of the language the
    program relies on (property read [get_prop], truthiness [truthy] for
    the conditional of line 28, and [ToString] for the template literals of
    lines 41-56, 86 and 104), and the conversions between safe integers and
    their decimal strings. *)

From stdpp Require Import base list strings.
From Stdlib Require Import ZArith DecimalString DecimalZ DecimalPos.
From S2P Require Import Prelude.

#[local] Set Warnings "-register-all".

(** ** Values

    Numbers are the safe integers ([Z.abs n <= 2^53]): every number the
    program reads (show ids, seasons, episode numbers) is one, and for them
    [Number::toString] is the plain decimal numeral.  Objects are their own
    enumerable properties in insertion order with distinct keys, as
    [JSON.parse] produces them. *)
Inductive jsval :=
| JUndefined
| JNull
| JBool (b : bool)
| JNum (n : Z)
| JStr (s : string)
| JArr (elems : list jsval)
| JObj (props : list (string * jsval)).

Definition max_safe : Z := (2 ^ 53)%Z.

Definition js_safe (n : Z) : bool := (Z.abs n <=? max_safe)%Z.

(** Induction with hypotheses on the elements of arrays and objects. *)
Section JsvalInd.
Variable P : jsval -> Prop.
Hypothesis HU : P JUndefined.
Hypothesis HN : P JNull.
Hypothesis HB : forall b, P (JBool b).
Hypothesis HNum : forall n, P (JNum n).
Hypothesis HS : forall s, P (JStr s).
Hypothesis HA : forall l, Forall P l -> P (JArr l).
Hypothesis HO : forall ps, Forall (fun kv => P kv.2) ps -> P (JObj ps).

Fixpoint jsval_ind' (v : jsval) : P v :=
  match v with
  | JUndefined => HU
  | JNull => HN
  | JBool b => HB b
  | JNum n => HNum n
  | JStr s => HS s
  | JArr l => HA l ((fix go l : Forall P l :=
      match l with
      | [] => Forall_nil_2 _
      | x :: l => Forall_cons_2 _ _ _ (jsval_ind' x) (go l)
      end) l)
  | JObj ps => HO ps ((fix go ps : Forall (fun kv => P kv.2) ps :=
      match ps with
      | [] => Forall_nil_2 _
      | kv :: ps => Forall_cons_2 _ _ _ (jsval_ind' kv.2) (go ps)
      end) ps)
  end.
End JsvalInd.

Fixpoint jsval_eqb (v w : jsval) : bool :=
  match v, w with
  | JUndefined, JUndefined | JNull, JNull => true
  | JBool b, JBool c => Bool.eqb b c
  | JNum n, JNum m => Z.eqb n m
  | JStr s, JStr t => bool_decide (s = t)
  | JArr l, JArr l' =>
      (fix go l l' := match l, l' with
        | [], [] => true
        | x :: l, y :: l' => jsval_eqb x y && go l l'
        | _, _ => false end) l l'
  | JObj ps, JObj ps' =>
      (fix go ps ps' := match ps, ps' with
        | [], [] => true
        | (k, x) :: ps, (k', y) :: ps' =>
            bool_decide (k = k') && jsval_eqb x y && go ps ps'
        | _, _ => false end) ps ps'
  | _, _ => false
  end.

Lemma jsval_eqb_eq v w : jsval_eqb v w = true <-> v = w.
Proof.
  revert w; induction v as [| | b | n | s | l IH | ps IH] using jsval_ind';
    intros [| | c | m | t | l' | ps']; simpl; try (split; congruence).
  - rewrite Bool.eqb_true_iff. split; congruence.
  - rewrite Z.eqb_eq. split; congruence.
  - rewrite bool_decide_eq_true. split; congruence.
  - revert l'; induction IH as [|x l Hx _ IHl]; intros [|y l']; try (split; congruence).
    rewrite andb_true_iff, Hx, (IHl l'). split; [intros [-> [= ->]]|intros [= -> ->]]; auto.
  - revert ps'; induction IH as [|[k x] ps Hx _ IHps]; intros [|[k' y] ps'];
      try (split; congruence).
    simpl in Hx. rewrite !andb_true_iff, bool_decide_eq_true, Hx, (IHps ps').
    split; [intros [[-> ->] [= ->]]|intros [= -> -> ->]]; auto.
Qed.

#[export] Instance jsval_eq_dec : EqDecision jsval := fun v w =>
  match decide (jsval_eqb v w = true) with
  | left H => left (proj1 (jsval_eqb_eq v w) H)
  | right H => right (fun E => H (proj2 (jsval_eqb_eq v w) E))
  end.

(** ** Numbers and their decimal strings *)

(** [Number::toString] on a safe integer: the decimal numeral, with a
    leading [-] for negative numbers. *)
Definition number_to_string (n : Z) : string :=
  NilZero.string_of_int (Z.to_int n).

(** The safe integer a string denotes when the string is that integer's
    canonical numeral, i.e. when [String(Number(s)) === s] holds in the
    integer domain: no sign [+], no leading zero, no [-0]. *)
Definition canonical_int (s : string) : option Z :=
  match NilZero.int_of_string s with
  | Some d =>
      let n := Z.of_int d in
      if js_safe n && bool_decide (number_to_string n = s) then Some n else None
  | None => None
  end.

(** ** The primitive operations *)

Fixpoint assoc (k : string) (ps : list (string * jsval)) : option jsval :=
  match ps with
  | [] => None
  | (k', v) :: ps => if bool_decide (k = k') then Some v else assoc k ps
  end.

Definition default_undef (o : option jsval) : jsval :=
  match o with Some v => v | None => JUndefined end.

(** [v[k]] for a property name [k]: reading from [undefined] or [null]
    throws; an object answers its own property or [undefined]; arrays and
    strings answer [length] and their indices: the canonical numerals of
    the integers from 0 (a key such as ["-1"] names no element).  Inherited
    members of the prototypes (methods) are not values of the model: the
    names the program reads ([show], [id], [name], [summary], [image],
    [medium], [season], [number]) are none of them. *)
Definition get_prop (v : jsval) (k : string) : res jsval :=
  match v with
  | JUndefined | JNull => Throw TypeError
  | JObj ps => Ok (default_undef (assoc k ps))
  | JArr l =>
      if bool_decide (k = "length"%string) then Ok (JNum (Z.of_nat (length l)))
      else match canonical_int k with
           | Some i => Ok (if (0 <=? i)%Z then default_undef (l !! Z.to_nat i) else JUndefined)
           | None => Ok JUndefined
           end
  | JStr s =>
      if bool_decide (k = "length"%string) then Ok (JNum (Z.of_nat (String.length s)))
      else match canonical_int k with
           | Some i => Ok (if (0 <=? i)%Z then
                             match String.get (Z.to_nat i) s with
                             | Some c => JStr (String c EmptyString)
                             | None => JUndefined end
                           else JUndefined)
           | None => Ok JUndefined
           end
  | JBool _ | JNum _ => Ok JUndefined
  end.

(** ToBoolean, for the conditional [show.image ? ... : ...]. *)
Definition truthy (v : jsval) : bool :=
  match v with
  | JUndefined | JNull => false
  | JBool b => b
  | JNum n => negb (Z.eqb n 0)
  | JStr s => negb (bool_decide (s = EmptyString))
  | JArr _ | JObj _ => true
  end.

(** ToString, as a template literal [`${v}`] applies it: arrays are
    joined with [","] (their [null] and [undefined] elements print as the
    empty string), plain objects print as ["[object Object]"]. *)
Fixpoint to_string (v : jsval) : string :=
  match v with
  | JUndefined => "undefined"
  | JNull => "null"
  | JBool true => "true"
  | JBool false => "false"
  | JNum n => number_to_string n
  | JStr s => s
  | JArr l =>
      String.concat ","
        (map (fun x => match x with
                       | JUndefined | JNull => EmptyString
                       | _ => to_string x end) l)
  | JObj _ => "[object Object]"
  end.

(** The two notions the specifications below are phrased in: whether a
    property read on a value throws, and the value such a read gives when
    it does not. *)
Definition nullish (v : jsval) : bool :=
  match v with JUndefined | JNull => true | _ => false end.

Definition read (v : jsval) (k : string) : jsval :=
  match get_prop v k with Ok w => w | Throw _ => JUndefined end.

(** The longest prefix of a list whose elements are neither [undefined]
    nor [null]: what a loop that reads a property of each element gets
    through before it throws. *)
Fixpoint nonnullish_prefix (l : list jsval) : list jsval :=
  match l with
  | [] => []
  | x :: l => if nullish x then [] else x :: nonnullish_prefix l
  end.

Definition all_nonnullish (l : list jsval) : bool := forallb (fun x => negb (nullish x)) l.

(** ** Lemmas *)

Lemma get_prop_obj ps k : get_prop (JObj ps) k = Ok (default_undef (assoc k ps)).
Proof. reflexivity. Qed.

Lemma get_prop_nullish v k :
  get_prop v k = Throw TypeError <-> v = JUndefined \/ v = JNull.
Proof.
  split; [|intros [-> | ->]; reflexivity].
  destruct v; simpl; auto; try discriminate;
    repeat (case_bool_decide || case_match); discriminate.
Qed.

Lemma get_prop_not_nullish v k :
  v <> JUndefined -> v <> JNull -> exists w, get_prop v k = Ok w.
Proof.
  intros H1 H2. destruct (get_prop v k) as [w|e] eqn:E; [eauto|].
  destruct v; simpl in E; try congruence;
    repeat (case_bool_decide || case_match); discriminate.
Qed.

Lemma number_to_string_int n :
  NilZero.int_of_string (number_to_string n) = Some (Z.to_int n).
Proof.
  unfold number_to_string. apply NilZero.isi;
    destruct n as [|p|p]; simpl; try discriminate;
    intros [= H]; by apply (DecimalPos.Unsigned.to_uint_nonnil p).
Qed.

Lemma canonical_int_number_to_string n :
  js_safe n = true -> canonical_int (number_to_string n) = Some n.
Proof.
  intros Hs. unfold canonical_int. rewrite number_to_string_int, DecimalZ.of_to.
  rewrite Hs, bool_decide_eq_true_2; reflexivity.
Qed.

Lemma canonical_int_spec s n :
  canonical_int s = Some n -> number_to_string n = s /\ js_safe n = true.
Proof.
  unfold canonical_int. destruct (NilZero.int_of_string s); [|discriminate].
  destruct (js_safe _) eqn:Hs; simpl; [|discriminate].
  case_bool_decide; [|discriminate]. intros [= <-]. auto.
Qed.

Lemma get_prop_read v k : nullish v = false -> get_prop v k = Ok (read v k).
Proof.
  intros Hn. destruct (get_prop_not_nullish v k) as [w Hw]; [by destruct v..|].
  unfold read. by rewrite Hw.
Qed.

Lemma get_prop_nullish_throw v k : nullish v = true -> get_prop v k = Throw TypeError.
Proof. destruct v; try discriminate; reflexivity. Qed.

Lemma truthy_not_nullish v : truthy v = true -> nullish v = false.
Proof. by destruct v. Qed.

Lemma nonnullish_prefix_all l : all_nonnullish l = true -> nonnullish_prefix l = l.
Proof.
  induction l as [|x l IH]; simpl; [done|].
  destruct (nullish x); simpl; [discriminate|]. intros H. by rewrite IH.
Qed.

#[export] Hint Resolve canonical_int_number_to_string truthy_not_nullish : tv.
#[export] Hint Rewrite get_prop_obj : tv_rw.
