(* ===== verification/Mappers.v ===== *)
(** * The two mappers: [getShowsByTerm] and [getEpisodesOfShow]

    src/tvmaze.js lines 18-31 and 85-96.  Each mapper is an async function
    that issues one [axios.get], suspends at its [await], and on resumption
    maps [response.data] with [Array.prototype.map].  The model splits each
    one at its suspension point: the request it issues
    ([getShowsByTerm_request], [getEpisodesOfShow_request]), and the
    continuation that turns the settled promise into the mapper's own
    completion ([getShowsByTerm_resume], [getEpisodesOfShow_resume]).  The
    whole function, against an HTTP client given as a type class, is their
    composition.  The typed TVMaze schema and the records of the spec are
    here too, for the refinement theorems. *)

From stdpp Require Import base list strings.
From Stdlib Require Import ZArith.
From S2P Require Import Prelude JsValue.

Open Scope string_scope.

(** ** The HTTP boundary *)

(** An [axios.get(url, {params})] call. *)
Record request := mk_request {
  req_url : string;
  req_params : list (string * string)
}.

(** What one GET settles to: [response.data] (axios has already decoded
    the JSON body) or the rejection of the promise. *)
Class HttpClient := http_get : request -> res jsval.

Definition tvmaze_api : string := "http://api.tvmaze.com".

(** line 8 *)
Definition missing_url_image : string := "https://tinyurl.com/tv-missing".

(** [response.data.map(cb)]: only an array has a [map] method; on any
    other value the read or the call throws a [TypeError]. *)
Definition array_map (cb : jsval -> res jsval) (data : jsval) : res (list jsval) :=
  match data with
  | JArr l => mapM cb l
  | _ => Throw TypeError
  end.

Module ShowMapper.

(** line 20 *)
Definition getShowsByTerm_request (term : string) : request :=
  mk_request (tvmaze_api +:+ "/search/shows") [("q", term)].

(** The callback of lines 22-30. *)
Definition show_of_info (info : jsval) : res jsval :=
  show ← get_prop info "show";
  id ← get_prop show "id";
  name ← get_prop show "name";
  summary ← get_prop show "summary";
  image ← get_prop show "image";
  image' ← (if truthy image then get_prop image "medium"
            else mret (JStr missing_url_image));
  mret (JObj [("id", id); ("name", name); ("summary", summary); ("image", image')]).

(** Lines 20-30 after the [await]: a rejected request propagates, a
    resolved one is mapped. *)
Definition getShowsByTerm_resume (r : res jsval) : res (list jsval) :=
  data ← r; array_map show_of_info data.

(** lines 18-31 *)
Definition getShowsByTerm `{HttpClient} (term : string) : res (list jsval) :=
  getShowsByTerm_resume (http_get (getShowsByTerm_request term)).

(** A response element the callback reads without throwing: it and its
    [show] are neither [undefined] nor [null]. *)
Definition show_readable (info : jsval) : bool :=
  negb (nullish info) && negb (nullish (read info "show")).

(** The object the callback builds from a readable element's [show]. *)
Definition expected_show (show : jsval) : jsval :=
  let image := read show "image" in
  JObj [("id", read show "id"); ("name", read show "name");
        ("summary", read show "summary");
        ("image", if truthy image then read image "medium" else JStr missing_url_image)].

End ShowMapper.

Module EpisodeMapper.

(** line 86 *)
Definition getEpisodesOfShow_request (id : jsval) : request :=
  mk_request (tvmaze_api +:+ "/shows/" +:+ to_string id +:+ "/episodes") [].

(** The callback of lines 88-95. *)
Definition episode_of_info (info : jsval) : res jsval :=
  id ← get_prop info "id";
  name ← get_prop info "name";
  season ← get_prop info "season";
  number ← get_prop info "number";
  mret (JObj [("id", id); ("name", name); ("season", season); ("number", number)]).

Definition expected_episode (info : jsval) : jsval :=
  JObj [("id", read info "id"); ("name", read info "name");
        ("season", read info "season"); ("number", read info "number")].

Definition getEpisodesOfShow_resume (r : res jsval) : res (list jsval) :=
  data ← r; array_map episode_of_info data.

(** lines 85-96 *)
Definition getEpisodesOfShow `{HttpClient} (id : jsval) : res (list jsval) :=
  getEpisodesOfShow_resume (http_get (getEpisodesOfShow_request id)).

End EpisodeMapper.

(** ** The TVMaze schema and the records of the spec

    [ApiSchema] decodes a payload that follows the documented shape of the
    two endpoints into typed records; [Records] holds the show and episode
    records of spec section 3 and the JavaScript objects that represent
    them. *)
Module ApiSchema.

Record image := mk_image { medium : string; original : string }.
Record show := mk_show {
  show_id : Z; show_name : string; show_summary : option string;
  show_image : option image }.
Record episode := mk_episode {
  ep_id : Z; ep_name : string; ep_season : Z; ep_number : Z }.

Definition as_int (v : jsval) : option Z :=
  match v with JNum n => if js_safe n then Some n else None | _ => None end.
Definition as_string (v : jsval) : option string :=
  match v with JStr s => Some s | _ => None end.
Definition as_nullable {A} (dec : jsval -> option A) (v : jsval) : option (option A) :=
  match v with JNull => Some None | _ => Some <$> dec v end.
Definition field {A} (dec : jsval -> option A) (ps : list (string * jsval)) k :=
  assoc k ps ≫= dec.

Definition decode_image (v : jsval) : option image :=
  match v with
  | JObj ps => m ← field as_string ps "medium"; o ← field as_string ps "original";
               Some (mk_image m o)
  | _ => None
  end.

Definition decode_show (v : jsval) : option show :=
  match v with
  | JObj ps =>
      i ← field as_int ps "id"; n ← field as_string ps "name";
      s ← field (as_nullable as_string) ps "summary";
      im ← field (as_nullable decode_image) ps "image";
      Some (mk_show i n s im)
  | _ => None
  end.

(** One element of [/search/shows]: [{score, show}]. *)
Definition decode_search_result (v : jsval) : option show :=
  match v with JObj ps => field decode_show ps "show" | _ => None end.

Definition decode_episode (v : jsval) : option episode :=
  match v with
  | JObj ps =>
      i ← field as_int ps "id"; n ← field as_string ps "name";
      s ← field as_int ps "season"; k ← field as_int ps "number";
      Some (mk_episode i n s k)
  | _ => None
  end.

Definition decode_array {A} (dec : jsval -> option A) (v : jsval) : option (list A) :=
  match v with JArr l => mapM dec l | _ => None end.

End ApiSchema.

Module Records.
Import ApiSchema.

(** The show record of spec section 3: [image] is the medium image or
    the placeholder. *)
Record show_rec := mk_show_rec {
  sr_id : Z; sr_name : string; sr_summary : option string; sr_image : string }.
Record episode_rec := mk_episode_rec {
  er_id : Z; er_name : string; er_season : Z; er_number : Z }.

Definition spec_show (s : show) : show_rec :=
  mk_show_rec (show_id s) (show_name s) (show_summary s)
    (match show_image s with Some im => medium im | None => missing_url_image end).

Definition spec_episode (e : episode) : episode_rec :=
  mk_episode_rec (ep_id e) (ep_name e) (ep_season e) (ep_number e).

Definition nullable_str (o : option string) : jsval :=
  match o with Some s => JStr s | None => JNull end.

Definition encode_show_rec (r : show_rec) : jsval :=
  JObj [("id", JNum (sr_id r)); ("name", JStr (sr_name r));
        ("summary", nullable_str (sr_summary r)); ("image", JStr (sr_image r))].

Definition encode_episode_rec (r : episode_rec) : jsval :=
  JObj [("id", JNum (er_id r)); ("name", JStr (er_name r));
        ("season", JNum (er_season r)); ("number", JNum (er_number r))].

End Records.

(** ** Properties of the mappers *)

Lemma array_map_Throw cb data e :
  array_map cb data = Throw e <->
  match data with
  | JArr l => exists l1 x l2 k1, l = (l1 ++ x :: l2)%list /\
              Forall2 (fun x y => cb x = Ok y) l1 k1 /\ cb x = Throw e
  | _ => e = TypeError
  end.
Proof.
  destruct data; simpl; try (split; congruence). apply mapM_res_Throw.
Qed.

Module SchemaFacts.
Import ApiSchema Records.

Lemma field_Some {A} (dec : jsval -> option A) ps k a :
  field dec ps k = Some a -> exists v, assoc k ps = Some v /\ dec v = Some a.
Proof. unfold field. destruct (assoc k ps); simpl; [eauto|discriminate]. Qed.

Lemma as_int_Some v n : as_int v = Some n -> v = JNum n.
Proof. destruct v; simpl; try discriminate. by case_match; intros [= ->]. Qed.

Lemma as_string_Some v s : as_string v = Some s -> v = JStr s.
Proof. destruct v; simpl; congruence. Qed.

Lemma as_nullable_string_Some v o :
  as_nullable as_string v = Some o -> v = nullable_str o.
Proof. destruct v; intros H; simplify_option_eq; done. Qed.

Lemma as_nullable_image_Some v o :
  as_nullable decode_image v = Some o ->
  match o with
  | None => v = JNull
  | Some im => exists ps, v = JObj ps /\ assoc "medium" ps = Some (JStr (medium im))
  end.
Proof.
  destruct v as [| | | | | |ps]; intros H; simplify_option_eq; try done.
  unfold field in *. simplify_option_eq.
  eexists; split; [done|]. by rewrite Heqo2, (as_string_Some _ _ Heqo).
Qed.

Lemma read_obj ps k : read (JObj ps) k = default_undef (assoc k ps).
Proof. reflexivity. Qed.
End SchemaFacts.

Module ShowMapperSpec.
Import ShowMapper.

Lemma show_of_info_readable info :
  show_readable info = true -> show_of_info info = Ok (expected_show (read info "show")).
Proof.
  unfold show_readable, show_of_info, expected_show.
  intros [Hi%negb_true_iff Hs%negb_true_iff]%andb_prop.
  rewrite (get_prop_read _ _ Hi). simpl.
  rewrite !(get_prop_read _ _ Hs). simpl.
  destruct (truthy (read _ "image")) eqn:Ht; simpl; [|done].
  by rewrite (get_prop_read _ _ (truthy_not_nullish _ Ht)).
Qed.

Lemma show_of_info_unreadable info :
  show_readable info = false -> show_of_info info = Throw TypeError.
Proof.
  unfold show_readable, show_of_info.
  destruct (nullish info) eqn:Hi; simpl.
  - intros _. rewrite (get_prop_nullish_throw _ "show"); [reflexivity|done].
  - rewrite (get_prop_read _ _ Hi). simpl. intros Hs%negb_false_iff.
    rewrite (get_prop_nullish_throw _ "id"); [reflexivity|done].
Qed.

Lemma mapM_show_of_info l :
  mapM show_of_info l =
  if forallb show_readable l then Ok (map (fun i => expected_show (read i "show")) l)
  else Throw TypeError.
Proof.
  induction l as [|x l IH]; simpl; [done|].
  destruct (show_readable x) eqn:Hx; simpl.
  - rewrite show_of_info_readable by done. simpl. rewrite IH.
    by destruct (forallb _ l).
  - by rewrite show_of_info_unreadable.
Qed.

Lemma getShowsByTerm_resume_Ok r shows :
  getShowsByTerm_resume r = Ok shows ->
  exists l, shows = map (fun info => expected_show (read info "show")) l.
Proof.
  unfold getShowsByTerm_resume. destruct r as [data|]; simpl; [|discriminate].
  destruct data; simpl; try discriminate.
  rewrite mapM_show_of_info. case_match; [|discriminate].
  intros [= <-]. eauto.
Qed.

(** C1. Functional behaviour of [getShowsByTerm] after its [await], on
    every outcome of the request: a rejected request propagates
    unchanged; a body that is not an array throws a [TypeError]; an
    array whose elements and their [show] are all neither [undefined]
    nor [null] gives one object per element, in order, carrying the
    show's [id], [name] and [summary] and, as [image], the medium image
    when [show.image] is truthy and the placeholder URL otherwise; any
    other array throws a [TypeError]. *)
Theorem getShowsByTerm_resume_spec (r : res jsval) :
  getShowsByTerm_resume r =
  match r with
  | Throw e => Throw e
  | Ok (JArr l) =>
      if forallb show_readable l
      then Ok (map (fun info => expected_show (read info "show")) l)
      else Throw TypeError
  | Ok _ => Throw TypeError
  end.
Proof.
  destruct r as [[]|]; try reflexivity. apply mapM_show_of_info.
Qed.

Import ApiSchema Records SchemaFacts.

Lemma search_result_refines info s :
  decode_search_result info = Some s ->
  show_readable info = true /\ expected_show (read info "show") = encode_show_rec (spec_show s).
Proof.
  destruct info as [| | | | | |ps]; try discriminate; simpl.
  intros (v & Hv & Hs)%field_Some. rewrite read_obj, Hv. simpl.
  destruct v as [| | | | | |qs]; try discriminate; simpl in Hs.
  destruct (field as_int qs "id") as [i|] eqn:Ei; simpl in Hs; [|discriminate].
  destruct (field as_string qs "name") as [n|] eqn:En; simpl in Hs; [|discriminate].
  destruct (field (as_nullable as_string) qs "summary") as [su|] eqn:Esu;
    simpl in Hs; [|discriminate].
  destruct (field (as_nullable decode_image) qs "image") as [im|] eqn:Eim;
    simpl in Hs; [|discriminate].
  injection Hs as <-.
  apply field_Some in Ei as (? & Hi & ->%as_int_Some).
  apply field_Some in En as (? & Hn & ->%as_string_Some).
  apply field_Some in Esu as (? & Hsu & ->%as_nullable_string_Some).
  apply field_Some in Eim as (vim & Him & Him').
  apply as_nullable_image_Some in Him'.
  split; [unfold show_readable; by rewrite read_obj, Hv|].
  unfold expected_show, encode_show_rec, spec_show; simpl.
  rewrite !read_obj, Hi, Hn, Hsu, Him. simpl.
  destruct im as [im|]; simpl.
  - destruct Him' as (ips & -> & Hm). by rewrite read_obj, Hm.
  - by subst vim.
Qed.

Lemma search_body_refines data shows :
  decode_array decode_search_result data = Some shows ->
  getShowsByTerm_resume (Ok data) = Ok (map (fun s => encode_show_rec (spec_show s)) shows).
Proof.
  destruct data as [| | | | |l|]; try discriminate. simpl.
  rewrite mapM_show_of_info. intros Hl%mapM_Some.
  induction Hl as [|x s l shows Hx _ IH]; simpl; [done|].
  destruct (search_result_refines _ _ Hx) as [-> ->]. simpl.
  destruct (forallb show_readable l); [|discriminate]. by injection IH as ->.
Qed.

(** C2. Refinement of the spec's Show Mapper: on every response body
    that follows the TVMaze schema of [/search/shows] (an array of
    results whose [show] has an integer [id], a string [name], a string
    or [null] [summary], and a [null] or [{medium, original}] [image]),
    [getShowsByTerm] resolves to the spec's show records, in the order
    of the response, each [image] being the medium image or the
    placeholder URL, as JavaScript objects. *)
Theorem getShowsByTerm_refines data shows :
  decode_array decode_search_result data = Some shows ->
  getShowsByTerm_resume (Ok data) = Ok (map (fun s => encode_show_rec (spec_show s)) shows).
Proof. apply search_body_refines. Qed.

(** The scenario of spec section 8: a search for "batman" answered with
    two results, the first with an image and the second without. *)
Definition batman_search_body : jsval :=
  JArr [JObj [("score", JNum 1); ("show", JObj [("id", JNum 975);
          ("name", JStr "Batman"); ("summary", JStr "<p>The Caped Crusader</p>");
          ("image", JObj [("medium", JStr "https://static.tvmaze.com/m/975.jpg");
                          ("original", JStr "https://static.tvmaze.com/o/975.jpg")])])];
        JObj [("score", JNum 1); ("show", JObj [("id", JNum 481);
          ("name", JStr "Batman Beyond"); ("summary", JNull); ("image", JNull)])]].

Definition batman_shows : list show :=
  [mk_show 975 "Batman" (Some "<p>The Caped Crusader</p>")
     (Some (mk_image "https://static.tvmaze.com/m/975.jpg" "https://static.tvmaze.com/o/975.jpg"));
   mk_show 481 "Batman Beyond" None None].

Lemma getShowsByTerm_refines_witness :
  getShowsByTerm_resume (Ok batman_search_body) =
  Ok (map (fun s => encode_show_rec (spec_show s)) batman_shows).
Proof. apply getShowsByTerm_refines. reflexivity. Defined.

End ShowMapperSpec.

Module EpisodeMapperSpec.
Import EpisodeMapper ApiSchema Records SchemaFacts.

Lemma episode_of_info_spec info :
  episode_of_info info =
  if nullish info then Throw TypeError else Ok (expected_episode info).
Proof.
  unfold episode_of_info. destruct (nullish info) eqn:Hn.
  - by rewrite (get_prop_nullish_throw _ "id").
  - by rewrite !(get_prop_read _ _ Hn).
Qed.

Lemma mapM_episode_of_info l :
  mapM episode_of_info l =
  if forallb (fun i => negb (nullish i)) l then Ok (map expected_episode l)
  else Throw TypeError.
Proof.
  induction l as [|x l IH]; simpl; [done|].
  rewrite episode_of_info_spec. destruct (nullish x); simpl; [done|].
  rewrite IH. by destruct (forallb _ l).
Qed.

Lemma getEpisodesOfShow_resume_Ok r eps :
  getEpisodesOfShow_resume r = Ok eps -> exists l, eps = map expected_episode l.
Proof.
  unfold getEpisodesOfShow_resume. destruct r as [data|]; simpl; [|discriminate].
  destruct data; simpl; try discriminate.
  rewrite mapM_episode_of_info. case_match; [|discriminate].
  intros [= <-]. eauto.
Qed.

(** C3. Functional behaviour of [getEpisodesOfShow] after its [await],
    on every outcome of the request: a rejected request propagates; a
    body that is not an array, or an array with an [undefined] or
    [null] element, throws a [TypeError]; otherwise each element gives,
    in order, an object with its [id], [name], [season] and [number]
    read verbatim. *)
Theorem getEpisodesOfShow_resume_spec (r : res jsval) :
  getEpisodesOfShow_resume r =
  match r with
  | Throw e => Throw e
  | Ok (JArr l) =>
      if forallb (fun i => negb (nullish i)) l then Ok (map expected_episode l)
      else Throw TypeError
  | Ok _ => Throw TypeError
  end.
Proof.
  destruct r as [[]|]; try reflexivity. apply mapM_episode_of_info.
Qed.

Lemma episode_refines info e :
  decode_episode info = Some e ->
  nullish info = false /\ expected_episode info = encode_episode_rec (spec_episode e).
Proof.
  destruct info as [| | | | | |ps]; intros H; simplify_option_eq; try done.
  split; [done|]. unfold field in *. simplify_option_eq.
  repeat match goal with
  | H : as_int _ = Some _ |- _ => apply as_int_Some in H as ->
  | H : as_string _ = Some _ |- _ => apply as_string_Some in H as ->
  end.
  unfold expected_episode. rewrite !read_obj.
  repeat match goal with H : assoc _ _ = Some _ |- _ => rewrite H; clear H end.
  reflexivity.
Qed.

Lemma episode_body_refines data eps :
  decode_array decode_episode data = Some eps ->
  getEpisodesOfShow_resume (Ok data) =
  Ok (map (fun e => encode_episode_rec (spec_episode e)) eps).
Proof.
  destruct data as [| | | | |l|]; try discriminate. simpl.
  rewrite mapM_episode_of_info. intros Hl%mapM_Some.
  induction Hl as [|x e l eps Hx _ IH]; simpl; [done|].
  destruct (episode_refines _ _ Hx) as [-> ->]. simpl.
  destruct (forallb _ l); [|discriminate]. by injection IH as ->.
Qed.

(** C4. Refinement of the spec's Episode Mapper: on every response body
    that follows the TVMaze schema of [/shows/:id/episodes] (an array of
    episodes with integer [id], [season] and [number] and a string
    [name]), [getEpisodesOfShow] resolves to the spec's episode records
    in the order of the response. *)
Theorem getEpisodesOfShow_refines data eps :
  decode_array decode_episode data = Some eps ->
  getEpisodesOfShow_resume (Ok data) =
  Ok (map (fun e => encode_episode_rec (spec_episode e)) eps).
Proof. apply episode_body_refines. Qed.

(** The episode scenario of spec section 8, for show 139. *)
Definition pilot_body : jsval :=
  JArr [JObj [("id", JNum 1); ("name", JStr "Pilot"); ("season", JNum 1);
              ("number", JNum 1); ("airdate", JStr "2014-04-06")]].

Lemma getEpisodesOfShow_refines_witness :
  getEpisodesOfShow_resume (Ok pilot_body) =
  Ok (map (fun e => encode_episode_rec (spec_episode e)) [mk_episode 1 "Pilot" 1 1]).
Proof. apply getEpisodesOfShow_refines. reflexivity. Defined.

End EpisodeMapperSpec.

(** ** The shape of the mapped records

    Spec section 3: after mapping, a show record has the four fields
    [id], [name], [summary], [image] and an episode record the four fields
    [id], [name], [season], [number]. *)
Module RecordShape.
Import ShowMapper EpisodeMapper ShowMapperSpec EpisodeMapperSpec Records SchemaFacts.

(** An object whose own keys are exactly [ks], in this order. *)
Definition has_keys (ks : list string) (v : jsval) : bool :=
  match v with JObj ps => bool_decide (map fst ps = ks) | _ => false end.

Definition show_keys : list string := ["id"; "name"; "summary"; "image"].
Definition episode_keys : list string := ["id"; "name"; "season"; "number"].

(** The response's [show.image] is one the code turns into a URL string:
    falsy, or an object whose [medium] is a string. *)
Definition image_typed (show : jsval) : Prop :=
  truthy (read show "image") = false \/ exists m, read (read show "image") "medium" = JStr m.

(** C13. Every record [getShowsByTerm] resolves to is an object with
    exactly the keys [id], [name], [summary], [image], in this order,
    whatever the response element held; its [image] is a string whenever
    the element's [show.image] is falsy or carries a string [medium]. *)
Theorem getShowsByTerm_records_type l shows :
  getShowsByTerm_resume (Ok (JArr l)) = Ok shows ->
  Forall2 (fun info v => has_keys show_keys v = true /\
             (image_typed (read info "show") -> exists s, read v "image" = JStr s)) l shows.
Proof.
  simpl. rewrite mapM_show_of_info. destruct (forallb _ _); [|discriminate]. intros [= <-].
  induction l as [|info l IH]; simpl; constructor; [|done]. split; [reflexivity|].
  unfold expected_show. rewrite read_obj. simpl.
  intros [-> | [m Hm]]; [by eexists|]. destruct (truthy _); [by exists m|by eexists].
Qed.

(** C14. Every record [getEpisodesOfShow] resolves to is an object with
    exactly the keys [id], [name], [season], [number]. *)
Theorem getEpisodesOfShow_records_type r eps :
  getEpisodesOfShow_resume r = Ok eps -> Forall (fun v => has_keys episode_keys v = true) eps.
Proof.
  intros (l & ->)%getEpisodesOfShow_resume_Ok. apply Forall_forall.
  intros v (info & <- & _)%list_elem_of_In%in_map_iff. reflexivity.
Qed.

Definition batman_records : list jsval :=
  map (fun s => encode_show_rec (spec_show s)) batman_shows.

Lemma getShowsByTerm_records_type_witness :
  getShowsByTerm_resume (Ok batman_search_body) = Ok batman_records /\
  Forall2 (fun info v => has_keys show_keys v = true /\
             (image_typed (read info "show") -> exists s, read v "image" = JStr s))
    (match batman_search_body with JArr l => l | _ => [] end) batman_records.
Proof.
  split; [vm_compute; reflexivity|].
  apply getShowsByTerm_records_type. vm_compute. reflexivity.
Defined.

Lemma getEpisodesOfShow_records_type_witness :
  getEpisodesOfShow_resume (Ok pilot_body) = Ok [encode_episode_rec (spec_episode (ApiSchema.mk_episode 1 "Pilot" 1 1))] /\
  Forall (fun v => has_keys episode_keys v = true)
    [encode_episode_rec (spec_episode (ApiSchema.mk_episode 1 "Pilot" 1 1))].
Proof.
  split; [vm_compute; reflexivity|].
  apply (getEpisodesOfShow_records_type (Ok pilot_body)). vm_compute. reflexivity.
Defined.

End RecordShape.
