(* ===== verification/Dom.v ===== *)
(** * The page: its state, the two renderers, and jQuery's data attributes

    src/tvmaze.js lines 3-6 (the module-level handles on the page regions),
    36-60 ([populateShows]) and 100-109 ([populateEpisodes]), and the
    reader [card_data_show_id] of a card's first attribute, which Html.v
    proves equal to [$(evt.target).closest(".Show").data("show-id")] of
    line 112 on every card whose fields cannot inject markup.

    The page is the record [dom]: the children of [#showsList] and of
    [#episodesList], each kept as the markup [$(...)] built it from, the
    visibility of [#episodesArea], and the value of [#searchForm-term].
    The renderers run in [stres dom]: a [TypeError] part-way through a
    [for ... of] loop leaves the elements already appended in place.

    What the browser and jQuery contribute is the class [Browser]:
    [JSON.parse] and the decoding of character references in an attribute
    value, with the law that a value without [&] decodes to itself. *)

From stdpp Require Import base list strings.
From Stdlib Require Import ZArith Ascii.
From S2P Require Import Prelude JsValue Mappers.

Open Scope string_scope.

(** ** Page state *)

Record dom := mk_dom {
  showsList : list string;
  episodesList : list string;
  episodesArea_visible : bool;
  searchForm_term : string
}.

Definition set_showsList (l : list string) (d : dom) : dom :=
  mk_dom l (episodesList d) (episodesArea_visible d) (searchForm_term d).
Definition set_episodesList (l : list string) (d : dom) : dom :=
  mk_dom (showsList d) l (episodesArea_visible d) (searchForm_term d).
Definition set_episodesArea_visible (b : bool) (d : dom) : dom :=
  mk_dom (showsList d) (episodesList d) b (searchForm_term d).

(** Characters the templates contain and Rocq string literals do not
    spell directly. *)
Definition dq_char : ascii := ascii_of_nat 34.
Definition dq : string := String dq_char EmptyString.
Definition nl : string := String (ascii_of_nat 10) EmptyString.

(** [$el.empty()], [$el.append($x)], [$el.show()], [$el.hide()] *)
Definition showsList_empty : stres dom unit := st_modify (set_showsList []).
Definition showsList_append (html : string) : stres dom unit :=
  st_modify (fun d => set_showsList (showsList d ++ [html])%list d).
Definition episodesList_empty : stres dom unit := st_modify (set_episodesList []).
Definition episodesList_append (html : string) : stres dom unit :=
  st_modify (fun d => set_episodesList (episodesList d ++ [html])%list d).
Definition episodesArea_show : stres dom unit := st_modify (set_episodesArea_visible true).
Definition episodesArea_hide : stres dom unit := st_modify (set_episodesArea_visible false).

(** ** Show List Renderer, lines 36-60 *)
Module ShowListRenderer.

(** The opening of the card's markup, up to the value of its
    [data-show-id] attribute. *)
Definition card_open : string := "<div data-show-id=" +:+ dq.

(** The template literal of lines 41-56 with its five substitutions.
    [$(...)] keeps the markup from its first [<] to its last [>], so the
    newline and indentation after the closing [</div>] are not part of
    the element. *)
Definition show_card_html (id image name summary : string) : string :=
  card_open +:+ id +:+ dq +:+ " class=" +:+ dq +:+ "Show col-md-12 col-lg-6 mb-4" +:+ dq +:+ ">" +:+ nl
  +:+ "         <div class=" +:+ dq +:+ "media" +:+ dq +:+ ">" +:+ nl
  +:+ "           <img" +:+ nl
  +:+ "              src=" +:+ dq +:+ image +:+ dq +:+ nl
  +:+ "              alt=" +:+ dq +:+ name +:+ dq +:+ nl
  +:+ "              class=" +:+ dq +:+ "w-25 me-3" +:+ dq +:+ ">" +:+ nl
  +:+ "           <div class=" +:+ dq +:+ "media-body" +:+ dq +:+ ">" +:+ nl
  +:+ "             <h5 class=" +:+ dq +:+ "text-primary" +:+ dq +:+ ">" +:+ name +:+ "</h5>" +:+ nl
  +:+ "             <div><small>" +:+ summary +:+ "</small></div>" +:+ nl
  +:+ "             <button class=" +:+ dq +:+ "btn btn-outline-light btn-sm Show-getEpisodes" +:+ dq +:+ "> " +:+ nl
  +:+ "               Episodes" +:+ nl
  +:+ "             </button>" +:+ nl
  +:+ "           </div>" +:+ nl
  +:+ "         </div>" +:+ nl
  +:+ "       </div>".

(** Evaluating the template: each [${show.f}] reads the property and
    converts it with ToString. *)
Definition show_card (show : jsval) : res string :=
  id ← get_prop show "id";
  image ← get_prop show "image";
  name ← get_prop show "name";
  summary ← get_prop show "summary";
  mret (show_card_html (to_string id) (to_string image) (to_string name) (to_string summary)).

(** lines 36-60 *)
Definition populateShows (shows : list jsval) : stres dom unit :=
  _ ← showsList_empty;
  st_for shows (fun show => html ← st_lift (show_card show); showsList_append html).

(** The card of a show that is neither [undefined] nor [null]. *)
Definition card_of (show : jsval) : string :=
  show_card_html (to_string (read show "id")) (to_string (read show "image"))
    (to_string (read show "name")) (to_string (read show "summary")).

End ShowListRenderer.

(** ** Episode List Renderer, lines 100-109 *)
Module EpisodeListRenderer.

Definition episode_item_html (name season number : string) : string :=
  "<li>" +:+ name +:+ "(season " +:+ season +:+ ", episode " +:+ number +:+ ")</li>".

(** The template literal of line 104. *)
Definition episode_item (episode : jsval) : res string :=
  name ← get_prop episode "name";
  season ← get_prop episode "season";
  number ← get_prop episode "number";
  mret (episode_item_html (to_string name) (to_string season) (to_string number)).

(** lines 100-109 *)
Definition populateEpisodes (episodes : list jsval) : stres dom unit :=
  _ ← episodesList_empty;
  _ ← st_for episodes (fun episode => html ← st_lift (episode_item episode);
                                      episodesList_append html);
  episodesArea_show.

Definition item_of (episode : jsval) : string :=
  episode_item_html (to_string (read episode "name")) (to_string (read episode "season"))
    (to_string (read episode "number")).

End EpisodeListRenderer.

(** ** jQuery's [.data("show-id")]

    [$(el).data("show-id")] on an element whose jQuery data cache is empty
    reads the attribute [data-show-id] and converts it with jQuery's
    [getData]: ["true"], ["false"] and ["null"] become those values, a
    string that is the numeral of a number becomes that number, a string
    wrapped in braces or brackets goes through [JSON.parse] (a parse error
    is caught and leaves the string), anything else stays a string.  In
    the model a numeral is that of a safe integer: jQuery's test
    [data === +data + ""] also converts the numerals of non-integral
    numbers (["1.5"]), ["Infinity"] and the digit strings of larger
    integers that print back unchanged, which the model keeps as strings,
    having no such numbers; the program's ids are safe integers. *)

Class Browser := {
  json_parse : string -> option jsval;
  decode_char_refs : string -> string
}.

Fixpoint has_char (c : ascii) (s : string) : bool :=
  match s with
  | EmptyString => false
  | String c' s => bool_decide (c = c') || has_char c s
  end.

Definition ends_with (c : ascii) (s : string) : bool :=
  match String.get (pred (String.length s)) s with
  | Some c' => bool_decide (c = c') && bool_decide (2 <= String.length s)%nat
  | None => false
  end.

(** [/^(?:\{[\w\W]*\}|\[[\w\W]*\])$/.test(s)] *)
Definition rbrace (s : string) : bool :=
  match s with
  | String "{" _ => ends_with "}" s
  | String "[" _ => ends_with "]" s
  | _ => false
  end.

(** An object or an array. *)
Definition composite (v : jsval) : bool :=
  match v with JArr _ | JObj _ => true | _ => false end.

(** What the environment guarantees: an attribute value without [&]
    contains no character reference, and a JSON text that starts with [{]
    or [[] denotes an object or an array. *)
Class BrowserLaws `{Browser} := {
  decode_char_refs_plain : forall s, has_char "&"%char s = false -> decode_char_refs s = s;
  json_parse_composite : forall s v, rbrace s = true -> json_parse s = Some v -> composite v = true
}.

Definition jq_getData `{Browser} (s : string) : jsval :=
  if bool_decide (s = "true") then JBool true
  else if bool_decide (s = "false") then JBool false
  else if bool_decide (s = "null") then JNull
  else match canonical_int s with
       | Some n => JNum n
       | None => if rbrace s then default (JStr s) (json_parse s) else JStr s
       end.

Fixpoint strip_prefix (p s : string) : option string :=
  match p, s with
  | EmptyString, _ => Some s
  | String c p, String c' s => if bool_decide (c = c') then strip_prefix p s else None
  | String _ _, EmptyString => None
  end.

(** The tokenizer's double-quoted attribute value: up to the next double quote. *)
Fixpoint dq_value (s : string) : string :=
  match s with
  | EmptyString => EmptyString
  | String c s => if bool_decide (c = dq_char) then EmptyString else String c (dq_value s)
  end.

(** [.data("show-id")] of a card of [#showsList]: the value of the first
    attribute of its markup, decoded and converted by [getData]. *)
Definition card_data_show_id `{Browser} (html : string) : jsval :=
  match strip_prefix ShowListRenderer.card_open html with
  | Some rest => jq_getData (decode_char_refs (dq_value rest))
  | None => JUndefined
  end.

(** ** Properties of the renderers *)

Section AppendLoop.
(** A region of the page, its append operation, and the item the loop
    body builds for each element. *)
Variable set : list string -> dom -> dom.
Hypothesis set_set : forall l l' d, set l (set l' d) = set l d.
Variable append : string -> stres dom unit.
Hypothesis append_set : forall h acc d, append h (set acc d) = (set (acc ++ [h])%list d, Ok tt).
Variable item : jsval -> res string.
Variable item_of : jsval -> string.
Hypothesis item_spec : forall x, item x = if nullish x then Throw TypeError else Ok (item_of x).

Lemma append_loop xs acc d :
  st_for xs (fun x => html ← st_lift (item x); append html) (set acc d) =
  (set (acc ++ map item_of (nonnullish_prefix xs))%list d,
   if all_nonnullish xs then Ok tt else Throw TypeError).
Proof.
  revert acc; induction xs as [|x xs IH]; intros acc; simpl.
  - by rewrite app_nil_r.
  - rewrite !stres_bind_run. unfold st_lift. rewrite item_spec.
    destruct (nullish x); simpl; [by rewrite app_nil_r|].
    rewrite append_set. simpl. rewrite IH. by rewrite <- app_assoc.
Qed.
End AppendLoop.

Module RendererSpec.
Import ShowListRenderer EpisodeListRenderer.

Lemma show_card_spec show :
  show_card show = if nullish show then Throw TypeError else Ok (card_of show).
Proof.
  unfold show_card. destruct (nullish show) eqn:Hn.
  - by rewrite (get_prop_nullish_throw _ "id").
  - by rewrite !(get_prop_read _ _ Hn).
Qed.

Lemma episode_item_spec episode :
  episode_item episode = if nullish episode then Throw TypeError else Ok (item_of episode).
Proof.
  unfold episode_item. destruct (nullish episode) eqn:Hn.
  - by rewrite (get_prop_nullish_throw _ "name").
  - by rewrite !(get_prop_read _ _ Hn).
Qed.

Lemma populateShows_run shows d :
  populateShows shows d =
  (set_showsList (map card_of (nonnullish_prefix shows)) d,
   if all_nonnullish shows then Ok tt else Throw TypeError).
Proof.
  unfold populateShows. rewrite stres_bind_run. simpl.
  apply (append_loop set_showsList) with (acc := []); try done.
  apply show_card_spec.
Qed.

Lemma populateEpisodes_run episodes d :
  populateEpisodes episodes d =
  if all_nonnullish episodes
  then (set_episodesArea_visible true (set_episodesList (map item_of episodes) d), Ok tt)
  else (set_episodesList (map item_of (nonnullish_prefix episodes)) d, Throw TypeError).
Proof.
  unfold populateEpisodes. rewrite !stres_bind_run. simpl. rewrite stres_bind_run.
  rewrite (append_loop set_episodesList) with (acc := [])
    (item_of := item_of); try done; [|apply episode_item_spec].
  destruct (all_nonnullish episodes) eqn:Ha; simpl; [|done].
  by rewrite nonnullish_prefix_all.
Qed.

(** C5. [populateShows] replaces the content of [#showsList] by one card
    per show, in order, each the template of lines 41-56 filled with the
    show's [id], [image], [name] and [summary] converted by ToString; it
    touches nothing else.  If some show is [undefined] or [null] the loop
    throws a [TypeError] there, and the cards of the shows before it stay
    appended. *)
Theorem populateShows_spec shows d :
  populateShows shows d =
  (set_showsList (map card_of (nonnullish_prefix shows)) d,
   if all_nonnullish shows then Ok tt else Throw TypeError).
Proof. apply populateShows_run. Qed.

(** C6. [populateEpisodes] replaces the content of [#episodesList] by one
    item ["<name>(season <season>, episode <number>)"] per episode, in
    order, and then makes [#episodesArea] visible.  If some episode is
    [undefined] or [null] the loop throws there: the items before it stay
    appended and the area's visibility is left as it was. *)
Theorem populateEpisodes_spec episodes d :
  populateEpisodes episodes d =
  if all_nonnullish episodes
  then (set_episodesArea_visible true (set_episodesList (map item_of episodes) d), Ok tt)
  else (set_episodesList (map item_of (nonnullish_prefix episodes)) d, Throw TypeError).
Proof. apply populateEpisodes_run. Qed.

End RendererSpec.

Module DataAttrSpec.
Import ShowListRenderer.

Lemma strip_prefix_app p r : strip_prefix p (p +:+ r) = Some r.
Proof. induction p as [|c p IH]; simpl; [done|]. by rewrite bool_decide_eq_true_2. Qed.

Lemma dq_value_app v r : has_char dq_char v = false -> dq_value (v +:+ dq +:+ r) = v.
Proof.
  induction v as [|c v IH]; simpl.
  - intros _. reflexivity.
  - intros [Hc%bool_decide_eq_false Hv]%orb_false_iff.
    rewrite bool_decide_eq_false_2 by congruence. by rewrite IH.
Qed.

(** jQuery's [getData] turns the decimal numeral of a safe integer back
    into that number. *)
Lemma jq_getData_number `{Browser} n :
  js_safe n = true -> jq_getData (number_to_string n) = JNum n.
Proof.
  intros Hs. pose proof (canonical_int_number_to_string n Hs) as Hc.
  unfold jq_getData.
  repeat (case_bool_decide;
    [match goal with Hb : number_to_string n = _ |- _ =>
       rewrite Hb in Hc; vm_compute in Hc; discriminate end|]).
  by rewrite Hc.
Qed.

(** Apart from strings wrapped in braces or brackets, which go through
    [JSON.parse], [getData] only changes the type of an attribute value,
    never its text: ToString of the converted value is the attribute
    string itself. *)
Lemma jq_getData_to_string `{Browser} s :
  rbrace s = false -> to_string (jq_getData s) = s.
Proof.
  intros Hr. unfold jq_getData.
  repeat (case_bool_decide; [by subst|]).
  destruct (canonical_int s) as [n|] eqn:Hc.
  - by apply canonical_int_spec in Hc as [? _].
  - by rewrite Hr.
Qed.

(** The characters of a numeral. *)
Definition numeral_char (c : ascii) : bool :=
  bool_decide (c ∈ ["0"; "1"; "2"; "3"; "4"; "5"; "6"; "7"; "8"; "9"; "-"]%char).

Lemma string_of_uint_chars c d :
  has_char c (DecimalString.NilEmpty.string_of_uint d) = true -> numeral_char c = true.
Proof.
  induction d; simpl; [discriminate|..];
    intros [Hc%bool_decide_eq_true|Hc]%orb_true_iff; subst; auto.
Qed.

Lemma nz_string_of_uint_chars c u :
  has_char c (DecimalString.NilZero.string_of_uint u) = true -> numeral_char c = true.
Proof.
  unfold DecimalString.NilZero.string_of_uint. intros Hc.
  destruct u; try exact (string_of_uint_chars c _ Hc).
  simpl in Hc. apply orb_true_iff in Hc as [Hc%bool_decide_eq_true|?]; [by subst|discriminate].
Qed.

Lemma number_to_string_chars c n :
  has_char c (number_to_string n) = true -> numeral_char c = true.
Proof.
  unfold number_to_string, DecimalString.NilZero.string_of_int.
  destruct (Z.to_int n) as [u|u]; [apply nz_string_of_uint_chars|].
  simpl. intros [Hc%bool_decide_eq_true|Hc]%orb_true_iff; [by subst|].
  by apply (nz_string_of_uint_chars c u).
Qed.

Lemma number_to_string_no_char c n :
  numeral_char c = false -> has_char c (number_to_string n) = false.
Proof.
  intros Hc. destruct (has_char c (number_to_string n)) eqn:E; [|done].
  apply number_to_string_chars in E. congruence.
Qed.

End DataAttrSpec.
