(* ===== verification/Html.v ===== *)
(** * The browser's HTML tokenizer, for the markup jQuery parses

    [$(`...`)] at line 40 and [$(`<li>...`)] at line 103 hand their
    markup to the browser's HTML parser.  This file models its first
    stage, the tokenizer of the HTML standard (section "Tokenization"),
    for the states markup without scripts reaches: data, tag open, end
    tag open, tag name, the attribute states with double-quoted,
    single-quoted and unquoted values, self-closing start tag, bogus
    comment and the comment states.  It is a machine that consumes one
    character per [step]; [run] folds it over a string and [tokenize]
    adds what the standard does at the end of the input.

    Tag and attribute names are lowercased; a repeated attribute on one
    tag is dropped (the first occurrence wins).  Left out: character
    references (attribute values keep their [&...] text; decoding them
    is the [Browser] class's business), the normalisation of CR and of
    NUL characters, DOCTYPE and CDATA (they become bogus comments here),
    the comment end [--!>] (a comment here ends only at [-->]), and the
    script and RCDATA states, which none of the program's templates
    enter. *)

From stdpp Require Import base list strings.
From Stdlib Require Import Ascii.
From S2P Require Import Prelude JsValue Mappers Dom.

Open Scope string_scope.

Inductive token :=
| TStart (name : string) (attrs : list (string * string)) (self_closing : bool)
| TEnd (name : string)
| TText (text : string)
| TComment (data : string).

Inductive tstate :=
| Data | TagOpen | EndTagOpen | TagName
| BeforeAttrName | AttrName | AfterAttrName | BeforeAttrValue
| AttrValueDQ | AttrValueSQ | AttrValueUQ | AfterAttrValueQuoted
| SelfClosingStartTag | BogusComment | MarkupOpen1 | MarkupOpen2
| CommentStart | CommentStartDash | Comment | CommentEndDash | CommentEnd.

(** The tokenizer's state: the current state, the character data not yet
    emitted, and the tag or comment being built (its attributes last
    first, the head being the attribute under construction).  A step
    returns the tokens it emits along with the new state. *)
Record machine := mk_machine {
  m_state : tstate;
  m_text : string;
  m_end : bool;
  m_name : string;
  m_attrs : list (string * string);
  m_comment : string
}.

(** ** Characters *)

Definition is_ws (c : ascii) : bool :=
  match nat_of_ascii c with 9 | 10 | 12 | 32 => true | _ => false end.
Definition is_upper (c : ascii) : bool :=
  (65 <=? nat_of_ascii c)%nat && (nat_of_ascii c <=? 90)%nat.
Definition is_alpha (c : ascii) : bool :=
  is_upper c || ((97 <=? nat_of_ascii c)%nat && (nat_of_ascii c <=? 122)%nat).
Definition lower (c : ascii) : ascii :=
  if is_upper c then ascii_of_nat (nat_of_ascii c + 32) else c.

Definition snoc (s : string) (c : ascii) : string := s +:+ String c EmptyString.

Definition ch_lt : ascii := "<".
Definition ch_gt : ascii := ">".
Definition ch_slash : ascii := "/".
Definition ch_eq : ascii := "=".
Definition ch_bang : ascii := "!".
Definition ch_dash : ascii := "-".
Definition ch_qmark : ascii := "?".
Definition ch_dq : ascii := dq_char.
Definition ch_sq : ascii := ascii_of_nat 39.

Definition ch_is (c d : ascii) : bool := bool_decide (c = d).

(** ** Building tokens *)

Definition set_state (st : tstate) (m : machine) : machine :=
  mk_machine st (m_text m) (m_end m) (m_name m) (m_attrs m) (m_comment m).

Definition add_text (s : string) (m : machine) : machine :=
  mk_machine (m_state m) (m_text m +:+ s) (m_end m) (m_name m) (m_attrs m) (m_comment m).

(** The pending character data, as a text token. *)
Definition flush (m : machine) : list token :=
  if bool_decide (m_text m = EmptyString) then [] else [TText (m_text m)].

Definition new_tag (is_end : bool) (c : ascii) (m : machine) : machine :=
  mk_machine TagName (m_text m) is_end (String (lower c) EmptyString) [] (m_comment m).

Definition add_name_char (c : ascii) (m : machine) : machine :=
  mk_machine (m_state m) (m_text m) (m_end m) (snoc (m_name m) (lower c))
    (m_attrs m) (m_comment m).

Definition new_attr (c : ascii) (m : machine) : machine :=
  mk_machine AttrName (m_text m) (m_end m) (m_name m)
    ((String (lower c) EmptyString, EmptyString) :: m_attrs m) (m_comment m).

Definition map_head (f : string * string -> string * string) (l : list (string * string)) :=
  match l with [] => [] | a :: l => f a :: l end.

Definition add_attr_name_char (c : ascii) (m : machine) : machine :=
  mk_machine (m_state m) (m_text m) (m_end m) (m_name m)
    (map_head (fun a => (snoc a.1 (lower c), a.2)) (m_attrs m)) (m_comment m).

(** Appends to the value of the attribute under construction. *)
Definition add_value (s : string) (m : machine) : machine :=
  mk_machine (m_state m) (m_text m) (m_end m) (m_name m)
    (map_head (fun a => (a.1, a.2 +:+ s)) (m_attrs m)) (m_comment m).

(** The first attribute of each name, in order. *)
Fixpoint dedup (seen : list string) (l : list (string * string)) : list (string * string) :=
  match l with
  | [] => []
  | a :: l => if bool_decide (a.1 ∈ seen) then dedup seen l else a :: dedup (a.1 :: seen) l
  end.

Definition reset : machine := mk_machine Data EmptyString false EmptyString [] EmptyString.

Definition emit_tag (self_closing : bool) (m : machine) : list token * machine :=
  let tok := if m_end m then TEnd (m_name m)
             else TStart (m_name m) (dedup [] (rev (m_attrs m))) self_closing in
  ((flush m ++ [tok])%list, reset).

Definition start_comment (st : tstate) (s : string) (m : machine) : machine :=
  mk_machine st (m_text m) (m_end m) (m_name m) (m_attrs m) s.

Definition add_comment (s : string) (m : machine) : machine :=
  mk_machine (m_state m) (m_text m) (m_end m) (m_name m) (m_attrs m) (m_comment m +:+ s).

Definition emit_comment (m : machine) : list token * machine :=
  ((flush m ++ [TComment (m_comment m)])%list, reset).

Definition silent (m : machine) : list token * machine := ([], m).

(** ** One character *)

Definition data_step (m : machine) (c : ascii) : list token * machine :=
  silent (if ch_is c ch_lt then set_state TagOpen m else add_text (String c EmptyString) m).

Definition before_attr_name_step (m : machine) (c : ascii) : list token * machine :=
  if is_ws c then silent m
  else if ch_is c ch_slash then silent (set_state SelfClosingStartTag m)
  else if ch_is c ch_gt then emit_tag false m
  else silent (new_attr c m).

Definition comment_step (m : machine) (c : ascii) : list token * machine :=
  silent (if ch_is c ch_dash then set_state CommentEndDash m
          else add_comment (String c EmptyString) m).

Definition bogus_step (m : machine) (c : ascii) : list token * machine :=
  if ch_is c ch_gt then emit_comment m else silent (add_comment (String c EmptyString) m).

Definition step (m : machine) (c : ascii) : list token * machine :=
  match m_state m with
  | Data => data_step m c
  | TagOpen =>
      if ch_is c ch_bang then silent (set_state MarkupOpen1 m)
      else if ch_is c ch_slash then silent (set_state EndTagOpen m)
      else if is_alpha c then silent (new_tag false c m)
      else if ch_is c ch_qmark then silent (start_comment BogusComment "?" m)
      else data_step (add_text "<" (set_state Data m)) c
  | EndTagOpen =>
      if is_alpha c then silent (new_tag true c m)
      else if ch_is c ch_gt then silent (set_state Data m)
      else bogus_step (start_comment BogusComment EmptyString m) c
  | TagName =>
      if is_ws c then silent (set_state BeforeAttrName m)
      else if ch_is c ch_slash then silent (set_state SelfClosingStartTag m)
      else if ch_is c ch_gt then emit_tag false m
      else silent (add_name_char c m)
  | BeforeAttrName => before_attr_name_step m c
  | AttrName =>
      if is_ws c then silent (set_state AfterAttrName m)
      else if ch_is c ch_slash then silent (set_state SelfClosingStartTag m)
      else if ch_is c ch_gt then emit_tag false m
      else if ch_is c ch_eq then silent (set_state BeforeAttrValue m)
      else silent (add_attr_name_char c m)
  | AfterAttrName =>
      if is_ws c then silent m
      else if ch_is c ch_slash then silent (set_state SelfClosingStartTag m)
      else if ch_is c ch_eq then silent (set_state BeforeAttrValue m)
      else if ch_is c ch_gt then emit_tag false m
      else silent (new_attr c m)
  | BeforeAttrValue =>
      if is_ws c then silent m
      else if ch_is c ch_dq then silent (set_state AttrValueDQ m)
      else if ch_is c ch_sq then silent (set_state AttrValueSQ m)
      else if ch_is c ch_gt then emit_tag false m
      else silent (add_value (String c EmptyString) (set_state AttrValueUQ m))
  | AttrValueDQ =>
      silent (if ch_is c ch_dq then set_state AfterAttrValueQuoted m
              else add_value (String c EmptyString) m)
  | AttrValueSQ =>
      silent (if ch_is c ch_sq then set_state AfterAttrValueQuoted m
              else add_value (String c EmptyString) m)
  | AttrValueUQ =>
      if is_ws c then silent (set_state BeforeAttrName m)
      else if ch_is c ch_gt then emit_tag false m
      else silent (add_value (String c EmptyString) m)
  | AfterAttrValueQuoted =>
      if is_ws c then silent (set_state BeforeAttrName m)
      else if ch_is c ch_slash then silent (set_state SelfClosingStartTag m)
      else if ch_is c ch_gt then emit_tag false m
      else before_attr_name_step (set_state BeforeAttrName m) c
  | SelfClosingStartTag =>
      if ch_is c ch_gt then emit_tag true m
      else before_attr_name_step (set_state BeforeAttrName m) c
  | BogusComment => bogus_step m c
  | MarkupOpen1 =>
      if ch_is c ch_dash then silent (set_state MarkupOpen2 m)
      else bogus_step (start_comment BogusComment EmptyString m) c
  | MarkupOpen2 =>
      if ch_is c ch_dash then silent (start_comment CommentStart EmptyString m)
      else bogus_step (start_comment BogusComment "-" m) c
  | CommentStart =>
      if ch_is c ch_dash then silent (set_state CommentStartDash m)
      else if ch_is c ch_gt then emit_comment m
      else comment_step (set_state Comment m) c
  | CommentStartDash =>
      if ch_is c ch_dash then silent (set_state CommentEnd m)
      else if ch_is c ch_gt then emit_comment m
      else comment_step (add_comment "-" (set_state Comment m)) c
  | Comment => comment_step m c
  | CommentEndDash =>
      if ch_is c ch_dash then silent (set_state CommentEnd m)
      else comment_step (add_comment "-" (set_state Comment m)) c
  | CommentEnd =>
      if ch_is c ch_gt then emit_comment m
      else if ch_is c ch_dash then silent (add_comment "-" m)
      else comment_step (add_comment "--" (set_state Comment m)) c
  end.

(** The tokens a string makes the machine emit, in order, and the state
    it leaves the machine in. *)
Fixpoint run (m : machine) (s : string) : list token * machine :=
  match s with
  | EmptyString => ([], m)
  | String c s =>
      let '(ts, m1) := step m c in
      let '(ts', m2) := run m1 s in
      ((ts ++ ts')%list, m2)
  end.

(** The end of the input: pending text is emitted, a tag cut short is
    dropped, a comment cut short is emitted. *)
Definition finish (m : machine) : list token :=
  match m_state m with
  | Data => flush m
  | TagOpen => flush (add_text "<" m)
  | EndTagOpen => flush (add_text "</" m)
  | TagName | BeforeAttrName | AttrName | AfterAttrName | BeforeAttrValue
  | AttrValueDQ | AttrValueSQ | AttrValueUQ | AfterAttrValueQuoted
  | SelfClosingStartTag => flush m
  | MarkupOpen1 => (emit_comment (start_comment BogusComment EmptyString m)).1
  | MarkupOpen2 => (emit_comment (start_comment BogusComment "-" m)).1
  | BogusComment | CommentStart | CommentStartDash | Comment
  | CommentEndDash | CommentEnd => (emit_comment m).1
  end.

Definition tokenize (s : string) : list token :=
  let '(ts, m) := run reset s in (ts ++ finish m)%list.

(** ** Attributes and classes *)

Fixpoint attr (k : string) (attrs : list (string * string)) : option string :=
  match attrs with
  | [] => None
  | (k', v) :: attrs => if bool_decide (k = k') then Some v else attr k attrs
  end.

(** The class tokens of a [class] value: split at ASCII whitespace. *)
Fixpoint split_ws_acc (cur : string) (s : string) : list string :=
  match s with
  | EmptyString => match cur with EmptyString => [] | _ => [cur] end
  | String c s =>
      if is_ws c then match cur with EmptyString => split_ws_acc EmptyString s
                                     | _ => cur :: split_ws_acc EmptyString s end
      else split_ws_acc (snoc cur c) s
  end.

Definition has_class (cls : string) (attrs : list (string * string)) : bool :=
  match attr "class" attrs with
  | Some v => bool_decide (cls ∈ split_ws_acc EmptyString v)
  | None => false
  end.

(** The first start tag of a token list. *)
Fixpoint first_start (ts : list token) : option (string * list (string * string)) :=
  match ts with
  | [] => None
  | TStart n a _ :: _ => Some (n, a)
  | _ :: ts => first_start ts
  end.

(** ** Elements: [$(html)] and [.closest(".Show")]

    The tree the parser builds is followed through its stack of open
    elements (innermost first): a start tag opens an element unless it is
    a void element, an end tag closes the innermost open element of its
    name and everything opened inside it, and is ignored when no element
    of that name is open.  This is the rule of the HTML standard for
    markup in which elements nest properly; the repairs it makes for
    mis-nested formatting elements, tables and implied end tags are not
    modelled. *)

Definition void_elements : list string :=
  ["area"; "base"; "br"; "col"; "embed"; "hr"; "img"; "input"; "link";
   "meta"; "source"; "track"; "wbr"].

Definition element : Type := string * list (string * string).

Fixpoint pop_to (n : string) (st : list element) : option (list element) :=
  match st with
  | [] => None
  | e :: st => if bool_decide (e.1 = n) then Some st else pop_to n st
  end.

(** The builder's state: the open elements, and the element with class
    [Show-getEpisodes] opened last together with its ancestors. *)
Definition tree_step (acc : list element * option (list element)) (t : token)
    : list element * option (list element) :=
  match t with
  | TStart n a _ =>
      ((if bool_decide (n ∈ void_elements) then acc.1 else (n, a) :: acc.1),
       if has_class "Show-getEpisodes" a then Some ((n, a) :: acc.1) else acc.2)
  | TEnd n => (default acc.1 (pop_to n acc.1), acc.2)
  | TText _ | TComment _ => acc
  end.

(** The card's own Episodes button is the last element of the card with
    class [Show-getEpisodes]: the template puts it after every
    substitution.  Its path is the button followed by its ancestors. *)
Definition button_path (ts : list token) : option (list element) :=
  (fold_left tree_step ts ([], None)).2.

(** [.closest(sel)]: the element itself or its nearest ancestor that has
    the class. *)
Fixpoint closest (cls : string) (path : list element) : option element :=
  match path with
  | [] => None
  | e :: path => if has_class cls e.2 then Some e else closest cls path
  end.

(** [.data(key)] on a jQuery set whose data cache is empty: the
    attribute [data-key] of its first element, decoded and converted by
    [getData]; [undefined] on an empty set or a missing attribute. *)
Definition jq_data `{Browser} (key : string) (e : option element) : jsval :=
  match e with
  | Some (_, a) =>
      match attr ("data-" +:+ key) a with
      | Some v => jq_getData (decode_char_refs v)
      | None => JUndefined
      end
  | None => JUndefined
  end.

(** Line 112, [$(evt.target).closest(".Show").data("show-id")], for a
    click on the Episodes button of the card whose markup is [card]. *)
Definition closest_show_id `{Browser} (card : string) : jsval :=
  jq_data "show-id" (button_path (tokenize card) ≫= closest "Show").


(** Markup whose elements nest: every end tag closes the innermost open
    element, and every element opened is closed. *)
Fixpoint nested_go (open : list string) (ts : list token) : bool :=
  match ts with
  | [] => bool_decide (open = [])
  | TStart n _ _ :: ts =>
      if bool_decide (n ∈ void_elements) then nested_go open ts else nested_go (n :: open) ts
  | TEnd n :: ts =>
      match open with
      | n' :: open => bool_decide (n = n') && nested_go open ts
      | [] => false
      end
  | _ :: ts => nested_go open ts
  end.

(** Markup that can stand where the template puts a show's summary: the
    tokenizer is back in the data state at its end, and its elements
    nest. *)
Definition fragment_ok (s : string) : bool :=
  match run reset s with
  | (ts, mk_machine Data _ false EmptyString [] EmptyString) => nested_go [] ts
  | _ => false
  end.

(** ** Running the tokenizer over pieces of markup *)
Module TokenizerFacts.

Lemma run_seq m s1 s2 ts1 m1 ts2 m2 :
  run m s1 = (ts1, m1) -> run m1 s2 = (ts2, m2) -> run m (s1 +:+ s2) = ((ts1 ++ ts2)%list, m2).
Proof.
  revert m ts1; induction s1 as [|c s1 IH]; intros m ts1 H1 H2; simpl in *.
  - by simplify_eq.
  - destruct (step m c) as [ts0 m0]. destruct (run m0 s1) as [ts1' m1'] eqn:E.
    simplify_eq. rewrite (IH _ _ E H2). by rewrite app_assoc.
Qed.

(** Character data without [<] accumulates as text. *)
Lemma run_text m v :
  m_state m = Data -> has_char ch_lt v = false -> run m v = ([], add_text v m).
Proof.
  revert m; induction v as [|c v IH]; intros [st t e n a cm] Hst Hv; simpl in Hst; subst st.
  - unfold add_text; simpl. by rewrite str_app_nil_r.
  - apply orb_false_iff in Hv as [Hc Hv]. simpl.
    unfold data_step, ch_is. rewrite bool_decide_eq_false_2 by (intros ->; by rewrite bool_decide_eq_true_2 in Hc).
    rewrite IH by done. unfold add_text; simpl. by rewrite str_snoc_app.
Qed.

(** A double-quoted attribute value without a double quote accumulates as the
    value of the attribute under construction. *)
Lemma run_dq m v :
  m_state m = AttrValueDQ -> has_char ch_dq v = false -> run m v = ([], add_value v m).
Proof.
  revert m; induction v as [|c v IH]; intros [st t e n a cm] Hst Hv; simpl in Hst; subst st.
  - unfold add_value; simpl. destruct a as [|[k x] a]; simpl; [done|]. by rewrite str_app_nil_r.
  - apply orb_false_iff in Hv as [Hc Hv]. simpl.
    unfold ch_is. rewrite bool_decide_eq_false_2 by (intros ->; by rewrite bool_decide_eq_true_2 in Hc).
    rewrite IH by done. unfold add_value; simpl.
    destruct a as [|[k x] a]; simpl; [done|]. by rewrite str_snoc_app.
Qed.

(** Text tokens leave the tree unchanged. *)
Lemma fold_flush m acc : fold_left tree_step (flush m) acc = acc.
Proof. unfold flush. by case_bool_decide. Qed.

(** Nested markup leaves the stack of open elements as it found it. *)
Lemma fold_nested ts (opened st : list element) last :
  nested_go (map fst opened) ts = true ->
  exists last', fold_left tree_step ts ((opened ++ st)%list, last) = (st, last').
Proof.
  revert opened last; induction ts as [|[n a sc|n|x|x] ts IH]; intros opened last; simpl.
  - intros Ho%bool_decide_eq_true. destruct opened; [by eexists|discriminate].
  - case_bool_decide; intros Hn.
    + by apply IH.
    + by apply (IH ((n, a) :: opened)).
  - destruct opened as [|[n' a'] opened]; simpl; [discriminate|].
    intros [->%bool_decide_eq_true Hn]%andb_true_iff.
    rewrite bool_decide_eq_true_2 by done. by apply IH.
  - apply IH.
  - apply IH.
Qed.

End TokenizerFacts.

(** ** The tokens of a show card

    The template of lines 41-56 cut at its substitutions, and the tokens
    each fixed piece makes the tokenizer emit. *)
Module CardTokens.
Import ShowListRenderer TokenizerFacts.

Definition card_p2 : string :=
  dq +:+ " class=" +:+ dq +:+ "Show col-md-12 col-lg-6 mb-4" +:+ dq +:+ ">" +:+ nl
  +:+ "         <div class=" +:+ dq +:+ "media" +:+ dq +:+ ">" +:+ nl
  +:+ "           <img" +:+ nl +:+ "              src=" +:+ dq.
Definition card_p3 : string := dq +:+ nl +:+ "              alt=" +:+ dq.
Definition card_p4 : string :=
  dq +:+ nl +:+ "              class=" +:+ dq +:+ "w-25 me-3" +:+ dq +:+ ">" +:+ nl
  +:+ "           <div class=" +:+ dq +:+ "media-body" +:+ dq +:+ ">" +:+ nl
  +:+ "             <h5 class=" +:+ dq +:+ "text-primary" +:+ dq +:+ ">".
Definition card_p5 : string := "</h5>" +:+ nl +:+ "             <div><small>".
Definition card_p6 : string :=
  "</small></div>" +:+ nl
  +:+ "             <button class=" +:+ dq +:+ "btn btn-outline-light btn-sm Show-getEpisodes" +:+ dq +:+ "> " +:+ nl
  +:+ "               Episodes" +:+ nl
  +:+ "             </button>" +:+ nl
  +:+ "           </div>" +:+ nl
  +:+ "         </div>" +:+ nl
  +:+ "       </div>".

Lemma show_card_html_pieces id image name summary :
  show_card_html id image name summary =
  card_open +:+ id +:+ card_p2 +:+ image +:+ card_p3 +:+ name +:+ card_p4 +:+ name
  +:+ card_p5 +:+ summary +:+ card_p6.
Proof. reflexivity. Qed.

Definition in_value (text tag : string) (attrs : list (string * string)) : machine :=
  mk_machine AttrValueDQ text false tag attrs EmptyString.

Definition indent (k : nat) : string := nl +:+ String.concat "" (repeat " " k).

Definition outer_attrs (id : string) : list (string * string) :=
  [("data-show-id", id); ("class", "Show col-md-12 col-lg-6 mb-4")].
Definition img_attrs (image name : string) : list (string * string) :=
  [("src", image); ("alt", name); ("class", "w-25 me-3")].
Definition button_attrs : list (string * string) :=
  [("class", "btn btn-outline-light btn-sm Show-getEpisodes")].

Definition head_tokens (id : string) : list token :=
  [TStart "div" (outer_attrs id) false; TText (indent 9);
   TStart "div" [("class", "media")] false].
Definition img_tokens (image name : string) : list token :=
  [TText (indent 11); TStart "img" (img_attrs image name) false; TText (indent 11);
   TStart "div" [("class", "media-body")] false; TText (indent 13);
   TStart "h5" [("class", "text-primary")] false].
Definition mid_tokens : list token :=
  [TEnd "h5"; TText (indent 13); TStart "div" [] false; TStart "small" [] false].
Definition tail_tokens : list token :=
  [TEnd "small"; TEnd "div"; TText (indent 13); TStart "button" button_attrs false;
   TText (" " +:+ indent 15 +:+ "Episodes" +:+ indent 13); TEnd "button";
   TText (indent 11); TEnd "div"; TText (indent 9); TEnd "div"; TText (indent 7);
   TEnd "div"].

Lemma run_app_eq m s1 s2 :
  run m (s1 +:+ s2) =
  (((run m s1).1 ++ (run (run m s1).2 s2).1)%list, (run (run m s1).2 s2).2).
Proof.
  destruct (run m s1) as [ts1 m1] eqn:E1, (run m1 s2) as [ts2 m2] eqn:E2.
  simpl. rewrite E2. exact (run_seq _ _ _ _ _ _ _ E1 E2).
Qed.

Lemma pair_fst {A B} (a : A) (b : B) : (a, b).1 = a.
Proof. done. Qed.
Lemma pair_snd {A B} (a : A) (b : B) : (a, b).2 = b.
Proof. done. Qed.

(** Runs the tokenizer over the next piece [s1] of [run m (s1 +:+ s2)]
    with the piece's lemma.  The projections are rewritten rather than
    reduced: the kernel then never re-runs the tokenizer on open
    markup. *)
Ltac run_piece H := rewrite run_app_eq, H, ?pair_fst, ?pair_snd.

Lemma tokenize_eq s : tokenize s = ((run reset s).1 ++ finish (run reset s).2)%list.
Proof. unfold tokenize. by destruct (run reset s). Qed.

Lemma run_value text tag k a v :
  has_char ch_dq v = false ->
  run (in_value text tag ((k, EmptyString) :: a)) v = ([], in_value text tag ((k, v) :: a)).
Proof. intros Hv. by rewrite run_dq. Qed.

Lemma run_p1 : run reset card_open = ([], in_value EmptyString "div" [("data-show-id", EmptyString)]).
Proof. vm_compute. reflexivity. Qed.

Lemma run_p2 id :
  run (in_value EmptyString "div" [("data-show-id", id)]) card_p2 =
  (head_tokens id, in_value (indent 11) "img" [("src", EmptyString)]).
Proof. vm_compute. reflexivity. Qed.

Lemma run_p3 image :
  run (in_value (indent 11) "img" [("src", image)]) card_p3 =
  ([], in_value (indent 11) "img" [("alt", EmptyString); ("src", image)]).
Proof. vm_compute. reflexivity. Qed.

Lemma run_p4 image name :
  run (in_value (indent 11) "img" [("alt", name); ("src", image)]) card_p4 = (img_tokens image name, reset).
Proof. vm_compute. reflexivity. Qed.

Lemma run_p5 name : run (add_text name reset) card_p5 = ((flush (add_text name reset) ++ mid_tokens)%list, reset).
Proof. destruct name; vm_compute; reflexivity. Qed.

Lemma run_p6 t : run (add_text t reset) card_p6 = ((flush (add_text t reset) ++ tail_tokens)%list, reset).
Proof. destruct t; vm_compute; reflexivity. Qed.

Lemma fragment_ok_run s :
  fragment_ok s = true ->
  exists ts t, run reset s = (ts, add_text t reset) /\ nested_go [] ts = true.
Proof.
  unfold fragment_ok.
  destruct (run reset s) as [ts [[] t [] [|c n] [|x a] [|c' cm]]]; try discriminate.
  intros H. by exists ts, t.
Qed.

(** The markup up to the [<h5>] of the card. *)
Lemma run_card_prefix id image name rest :
  has_char ch_dq id = false -> has_char ch_dq image = false -> has_char ch_dq name = false ->
  run reset (card_open +:+ id +:+ card_p2 +:+ image +:+ card_p3 +:+ name +:+ card_p4 +:+ rest) =
  ((head_tokens id ++ img_tokens image name ++ (run reset rest).1)%list, (run reset rest).2).
Proof.
  intros Hid Him Hn.
  run_piece run_p1. run_piece (run_value EmptyString "div" "data-show-id" [] id Hid).
  run_piece run_p2. run_piece (run_value (indent 11) "img" "src" [] image Him).
  run_piece run_p3. run_piece (run_value (indent 11) "img" "alt" [("src", image)] name Hn).
  run_piece run_p4.
  by rewrite !app_nil_l.
Qed.

Lemma tokenize_card_prefix id image name summary :
  has_char ch_dq id = false -> has_char ch_dq image = false -> has_char ch_dq name = false ->
  tokenize (show_card_html id image name summary) =
  (head_tokens id ++ img_tokens image name ++ tokenize (name +:+ card_p5 +:+ summary +:+ card_p6))%list.
Proof.
  intros Hid Him Hn. rewrite !tokenize_eq, show_card_html_pieces, run_card_prefix by assumption.
  rewrite ?pair_fst, ?pair_snd. by rewrite <- !app_assoc.
Qed.

(** The whole card, when the name is plain text and the summary a
    fragment: the summary's tokens stand between the [<small>] and the
    [</small>] of the template. *)
Lemma tokenize_card id image name summary ts t :
  has_char ch_dq id = false -> has_char ch_dq image = false -> has_char ch_dq name = false ->
  has_char ch_lt name = false -> run reset summary = (ts, add_text t reset) ->
  tokenize (show_card_html id image name summary) =
  (head_tokens id ++ img_tokens image name ++ flush (add_text name reset) ++ mid_tokens
   ++ ts ++ flush (add_text t reset) ++ tail_tokens)%list.
Proof.
  intros Hid Him Hn Hnl Hs. rewrite tokenize_card_prefix, tokenize_eq by assumption.
  run_piece (run_text reset name Logic.eq_refl Hnl).
  run_piece run_p5. run_piece Hs.
  rewrite run_p6.
  change (finish reset) with (@nil token). by rewrite !app_nil_l, !app_nil_r, <- !app_assoc.
Qed.

End CardTokens.

(** ** [.closest(".Show").data("show-id")] on a card *)
Module ClosestSpec.
Import ShowListRenderer TokenizerFacts CardTokens.

(** The first start tag of a given name, with its attributes. *)
Fixpoint find_start (n : string) (ts : list token) : option (list (string * string)) :=
  match ts with
  | [] => None
  | TStart n' a _ :: ts => if bool_decide (n = n') then Some a else find_start n ts
  | _ :: ts => find_start n ts
  end.

(** The open elements when the summary starts: [<small>], its [<div>],
    [div.media-body], [div.media] and the card's outer element. *)
Definition card_stack (id : string) : list element :=
  [("small", []); ("div", []); ("div", [("class", "media-body")]);
   ("div", [("class", "media")]); ("div", outer_attrs id)].

Lemma fold_card_prefix id image name :
  fold_left tree_step mid_tokens
    (fold_left tree_step (flush (add_text name reset))
       (fold_left tree_step (img_tokens image name)
          (fold_left tree_step (head_tokens id) ([], None)))) = (card_stack id, None).
Proof. rewrite fold_flush. vm_compute. reflexivity. Qed.

Lemma fold_card_tail id last :
  fold_left tree_step tail_tokens (card_stack id, last) =
  ([], Some [("button", button_attrs); ("div", [("class", "media-body")]);
             ("div", [("class", "media")]); ("div", outer_attrs id)]).
Proof. vm_compute. reflexivity. Qed.

Lemma card_data_show_id_html `{Browser} id image name summary :
  has_char ch_dq id = false ->
  card_data_show_id (show_card_html id image name summary) = jq_getData (decode_char_refs id).
Proof.
  intros Hid. unfold card_data_show_id, show_card_html.
  by rewrite DataAttrSpec.strip_prefix_app, DataAttrSpec.dq_value_app by exact Hid.
Qed.

(** The path from the Episodes button of a card to the card's outer
    element, when the substitutions cannot open or close elements. *)
Lemma button_path_card id image name summary :
  has_char ch_dq id = false -> has_char ch_dq image = false -> has_char ch_dq name = false ->
  has_char ch_lt name = false -> fragment_ok summary = true ->
  button_path (tokenize (show_card_html id image name summary)) =
  Some [("button", button_attrs); ("div", [("class", "media-body")]);
        ("div", [("class", "media")]); ("div", outer_attrs id)].
Proof.
  intros Hid Him Hn Hnl Hf. destruct (fragment_ok_run _ Hf) as (ts & t & Hrun & Hnest).
  unfold button_path. rewrite (tokenize_card _ _ _ _ _ _ Hid Him Hn Hnl Hrun).
  rewrite !fold_left_app, fold_card_prefix.
  destruct (fold_nested ts [] (card_stack id) None Hnest) as [l Hl].
  rewrite app_nil_l in Hl. by rewrite Hl, fold_flush, fold_card_tail.
Qed.

(** The fields of a show whose ToString cannot change the structure of
    its card: an [image] and a [name] without double quote, a [name]
    without [<], and a [summary] that is a fragment whose elements nest
    (the TVMaze summaries, [<p>...</p>] with inline markup, are). *)
Definition card_inert (show : jsval) : bool :=
  negb (has_char ch_dq (to_string (read show "image"))) &&
  negb (has_char ch_dq (to_string (read show "name"))) &&
  negb (has_char ch_lt (to_string (read show "name"))) &&
  fragment_ok (to_string (read show "summary")).

Lemma closest_show_id_card_of `{BrowserLaws} show :
  has_char ch_dq (to_string (read show "id")) = false ->
  has_char "&"%char (to_string (read show "id")) = false ->
  card_inert show = true ->
  closest_show_id (card_of show) = jq_getData (to_string (read show "id")).
Proof.
  intros Hid Ha Hc. unfold card_inert in Hc.
  rewrite !andb_true_iff, !negb_true_iff in Hc. destruct Hc as [[[Him Hn] Hnl] Hf].
  unfold closest_show_id, card_of. rewrite button_path_card by assumption.
  transitivity (jq_getData (decode_char_refs (to_string (read show "id")))); [reflexivity|].
  by rewrite decode_char_refs_plain.
Qed.

(** C15. Equivalence of line 112 with the reader of the card's first
    attribute: on a card whose [id], [image] and [name] contain no double
    quote, whose [name] contains no [<] and whose [summary] is a fragment
    whose elements nest, [$(evt.target).closest(".Show").data("show-id")]
    computed on the parsed card (tokenizer, tree of open elements,
    [closest], [data]) gives the same value as [card_data_show_id], which
    only reads the text after [card_open] up to the next double quote. *)
Theorem closest_show_id_card `{Browser} id image name summary :
  has_char ch_dq id = false -> has_char ch_dq image = false -> has_char ch_dq name = false ->
  has_char ch_lt name = false -> fragment_ok summary = true ->
  closest_show_id (show_card_html id image name summary) =
  card_data_show_id (show_card_html id image name summary).
Proof.
  intros Hid Him Hn Hnl Hf. rewrite card_data_show_id_html by exact Hid.
  unfold closest_show_id. by rewrite button_path_card.
Qed.

(** C16. Round trip of the image and the name through the card's
    [<img>]: when [id], [image] and [name] contain no double quote, and
    [image] and [name] no [&] (so no character reference for the
    browser to decode), the first [img] element of the parsed card has
    exactly the attributes [src] = the show's image, [alt] = its name
    and the template's [class]. *)
Theorem card_img_roundtrip id image name summary :
  has_char ch_dq id = false -> has_char ch_dq image = false -> has_char ch_dq name = false ->
  has_char "&"%char image = false -> has_char "&"%char name = false ->
  find_start "img" (tokenize (show_card_html id image name summary)) = Some (img_attrs image name).
Proof. intros Hid Him Hn _ _. by rewrite tokenize_card_prefix. Qed.

(** Witness: a card whose summary is TVMaze markup. *)
Lemma card_img_roundtrip_witness :
  find_start "img" (tokenize (show_card_html "975" "a.jpg" "Batman" "<p>s</p>")) =
  Some (img_attrs "a.jpg" "Batman").
Proof. apply card_img_roundtrip; vm_compute; reflexivity. Defined.

End ClosestSpec.

(** ** Markup injection through the show's name *)
Module Injection.
Import ShowListRenderer TokenizerFacts CardTokens ClosestSpec.

(** A show name that closes the [alt] attribute and the [<img>] tag and
    opens an element with class [Show] and [data-show-id] [n]. *)
Definition redirect_open : string :=
  "x" +:+ dq +:+ "><div class=" +:+ dq +:+ "Show" +:+ dq +:+ " data-show-id=" +:+ dq.
Definition redirect_close : string := dq +:+ ">".
Definition redirect_name (n : string) : string := redirect_open +:+ n +:+ redirect_close.

Definition tokens_of (s : string) : list token := (run reset s).1.

Definition injected_attrs (n : string) : list (string * string) :=
  [("class", "Show"); ("data-show-id", n)].

Lemma redirect_pieces id image n summary :
  show_card_html id image (redirect_name n) summary =
  card_open +:+ id +:+ card_p2 +:+ image +:+ card_p3 +:+ redirect_open +:+ n +:+ redirect_close
  +:+ card_p4 +:+ redirect_open +:+ n +:+ redirect_close +:+ card_p5 +:+ summary +:+ card_p6.
Proof. unfold redirect_name. by rewrite show_card_html_pieces, !str_app_assoc. Qed.

Lemma run_redirect_alt image :
  run (in_value (indent 11) "img" [("alt", EmptyString); ("src", image)]) redirect_open =
  ([TText (indent 11); TStart "img" [("src", image); ("alt", "x")] false],
   in_value EmptyString "div" [("data-show-id", EmptyString); ("class", "Show")]).
Proof. vm_compute. reflexivity. Qed.

Lemma run_redirect_text :
  run reset redirect_open =
  ([], in_value ("x" +:+ dq +:+ ">") "div" [("data-show-id", EmptyString); ("class", "Show")]).
Proof. vm_compute. reflexivity. Qed.

Lemma run_redirect_close text n :
  run (in_value text "div" [("data-show-id", n); ("class", "Show")]) redirect_close =
  ((flush (add_text text reset) ++ [TStart "div" (injected_attrs n) false])%list, reset).
Proof. destruct text; vm_compute; reflexivity. Qed.

Lemma flush_redirect_text :
  flush (add_text ("x" +:+ dq +:+ ">") reset) = [TText ("x" +:+ dq +:+ ">")].
Proof. vm_compute. reflexivity. Qed.

Lemma run_reset_p4 : run reset card_p4 = (tokens_of card_p4, reset).
Proof. vm_compute. reflexivity. Qed.

Lemma run_reset_p5 : run reset card_p5 = (tokens_of card_p5, reset).
Proof. vm_compute. reflexivity. Qed.

(** The tokens up to the summary: the [<img>] closed after [alt="x"], an
    injected [div.Show] after it, the template's text as text, and a
    second injected [div.Show] inside the [<h5>]. *)
Definition redirect_prefix (id image n : string) : list token :=
  head_tokens id ++ [TText (indent 11); TStart "img" [("src", image); ("alt", "x")] false;
                     TStart "div" (injected_attrs n) false]
  ++ tokens_of card_p4 ++ [TText ("x" +:+ dq +:+ ">"); TStart "div" (injected_attrs n) false]
  ++ tokens_of card_p5.

Lemma tokenize_redirect id image n summary ts t :
  has_char ch_dq id = false -> has_char ch_dq image = false -> has_char ch_dq n = false ->
  run reset summary = (ts, add_text t reset) ->
  tokenize (show_card_html id image (redirect_name n) summary) =
  (redirect_prefix id image n ++ ts ++ flush (add_text t reset) ++ tail_tokens)%list.
Proof.
  intros Hid Him Hn Hs. rewrite tokenize_eq, redirect_pieces.
  run_piece run_p1. run_piece (run_value EmptyString "div" "data-show-id" [] id Hid).
  run_piece run_p2. run_piece (run_value (indent 11) "img" "src" [] image Him).
  run_piece run_p3. run_piece run_redirect_alt.
  run_piece (run_value EmptyString "div" "data-show-id" [("class", "Show")] n Hn).
  run_piece run_redirect_close. run_piece run_reset_p4. run_piece run_redirect_text.
  run_piece (run_value ("x" +:+ dq +:+ ">") "div" "data-show-id" [("class", "Show")] n Hn).
  run_piece run_redirect_close. run_piece run_reset_p5. run_piece Hs.
  rewrite run_p6, pair_fst, pair_snd, flush_redirect_text.
  change (finish reset) with (@nil token).
  unfold redirect_prefix. rewrite !app_nil_l, !app_nil_r, <- !app_assoc. cbn [app]. reflexivity.
Qed.

(** The open elements when the summary starts: the injected [div.Show]
    of the [<h5>] was closed by [</h5>], the one after the [<img>] is
    still open around [div.media-body]. *)
Definition redirect_stack (id n : string) : list element :=
  [("small", []); ("div", []); ("div", [("class", "media-body")]); ("div", injected_attrs n);
   ("div", [("class", "media")]); ("div", outer_attrs id)].

Lemma fold_redirect_prefix id image n :
  fold_left tree_step (redirect_prefix id image n) ([], None) = (redirect_stack id n, None).
Proof. vm_compute. reflexivity. Qed.

(** The template's end tags close the injected [div.Show] in place of
    the card's own, which is left open. *)
Lemma fold_redirect_tail id n last :
  fold_left tree_step tail_tokens (redirect_stack id n, last) =
  ([("div", outer_attrs id)], Some [("button", button_attrs); ("div", [("class", "media-body")]); ("div", injected_attrs n);
             ("div", [("class", "media")]); ("div", outer_attrs id)]).
Proof. vm_compute. reflexivity. Qed.

(** C17. The template of lines 41-56 interpolates the show's name
    without escaping it.  For every show whose name is
    [redirect_name n], whatever its id, image and (nested) summary, the
    card's first attribute still carries the show's id, but the card's
    Episodes button sits inside an injected [div.Show]: the click handler
    of line 112 reads [n], and requests the episodes of that other
    show. *)
Theorem name_injection_redirects `{Browser} id image n summary :
  has_char ch_dq id = false -> has_char ch_dq image = false -> has_char ch_dq n = false ->
  fragment_ok summary = true ->
  card_data_show_id (show_card_html id image (redirect_name n) summary) = jq_getData (decode_char_refs id) /\
  closest_show_id (show_card_html id image (redirect_name n) summary) = jq_getData (decode_char_refs n).
Proof.
  intros Hid Him Hn Hf. split; [by apply card_data_show_id_html|].
  destruct (fragment_ok_run _ Hf) as (ts & t & Hrun & Hnest).
  unfold closest_show_id, button_path. rewrite (tokenize_redirect _ _ _ _ _ _ Hid Him Hn Hrun).
  rewrite !fold_left_app, fold_redirect_prefix.
  destruct (fold_nested ts [] (redirect_stack id n) None Hnest) as [l Hl].
  rewrite app_nil_l in Hl. rewrite Hl, fold_flush, fold_redirect_tail. reflexivity.
Qed.

(** A show name that closes the [alt] attribute and adds an event
    handler attribute to the [<img>]. *)
Definition onerror_name : string := "x" +:+ dq +:+ " onerror=" +:+ dq +:+ "alert(1)".

(** The same omission lets a name add attributes to the [<img>]: here an
    [onerror] handler. *)
Example onerror_injection :
  find_start "img" (tokenize (show_card_html "975" "a.jpg" onerror_name "s")) =
  Some [("src", "a.jpg"); ("alt", "x"); ("onerror", "alert(1)"); ("class", "w-25 me-3")].
Proof. vm_compute. reflexivity. Qed.

End Injection.

(** ** The tokens of an episode item, line 104 *)
Module ItemTokens.
Import EpisodeListRenderer TokenizerFacts CardTokens.

Lemma has_char_app c a b : has_char c (a +:+ b) = has_char c a || has_char c b.
Proof. induction a as [|d a IH]; [done|]. simpl. by rewrite IH, orb_assoc. Qed.

(** The text of the item. *)
Definition item_text (name season number : string) : string :=
  name +:+ "(season " +:+ season +:+ ", episode " +:+ number +:+ ")".

Lemma episode_item_html_pieces name season number :
  episode_item_html name season number = "<li>" +:+ (item_text name season number +:+ "</li>").
Proof. unfold episode_item_html, item_text. by rewrite !str_app_assoc. Qed.

Lemma run_li_open : run reset "<li>" = ([TStart "li" [] false], reset).
Proof. vm_compute. reflexivity. Qed.

Lemma run_li_close t : t <> EmptyString -> run (add_text t reset) "</li>" = ([TText t; TEnd "li"], reset).
Proof. destruct t; [done|]. intros _. vm_compute. reflexivity. Qed.

(** C18. An episode item is one [li] element whose content is the single
    text [name(season s, episode n)], when the three substitutions
    contain no [<] (which would open markup) and no [&] (which would
    start a character reference the browser decodes): ToString of
    TVMaze's integer seasons and numbers contains neither. *)
Theorem episode_item_tokens name season number :
  has_char ch_lt name = false -> has_char ch_lt season = false -> has_char ch_lt number = false ->
  has_char "&"%char name = false -> has_char "&"%char season = false ->
  has_char "&"%char number = false ->
  tokenize (episode_item_html name season number) =
  [TStart "li" [] false; TText (item_text name season number); TEnd "li"].
Proof.
  intros Hn Hs Hk _ _ _. rewrite tokenize_eq, episode_item_html_pieces.
  assert (Ht : has_char ch_lt (item_text name season number) = false).
  { unfold item_text. rewrite !has_char_app, Hn, Hs, Hk. reflexivity. }
  run_piece run_li_open. run_piece (run_text reset _ Logic.eq_refl Ht).
  rewrite run_li_close by (unfold item_text; by destruct name).
  rewrite ?pair_fst, ?pair_snd. reflexivity.
Qed.

(** The same template lets an episode name add elements to the list. *)
Example item_name_markup :
  tokenize (episode_item_html "<b>Pilot</b>" "1" "1") =
  [TStart "li" [] false; TStart "b" [] false; TText "Pilot"; TEnd "b";
   TText "(season 1, episode 1)"; TEnd "li"].
Proof. vm_compute. reflexivity. Qed.

Lemma episode_item_tokens_witness :
  tokenize (episode_item_html "Pilot" "1" "1") =
  [TStart "li" [] false; TText (item_text "Pilot" "1" "1"); TEnd "li"].
Proof. apply episode_item_tokens; reflexivity. Defined.

End ItemTokens.
