(* ===== verification/Controllers.v ===== *)
(** * The two controllers and the page's event loop

    src/tvmaze.js lines 67-78 ([searchForShowAndDisplay] and the submit
    handler of [#searchForm]) and 111-118 ([getEpisodesAndDisplay] and the
    delegated click handler on [#showsList]).

    Both handlers are async functions with one suspension point, the
    [await] of their mapper's [axios.get].  A handler runs synchronously
    up to that [await] when its event fires, and resumes, in microtasks
    that no other event can interleave, when the request settles.  The
    world is the page, the outstanding requests with the continuation
    each one resumes, the log of the requests issued, and the promise
    rejections nobody handles.  An event is the user typing in the search
    box, submitting the form, clicking the Episodes button of a card, or
    the network settling one outstanding request; [handle] is the
    executable transition of one event and [step] the relation it
    defines.  Requests settle in any order. *)

From stdpp Require Import base list strings.
From Stdlib Require Import ZArith Ascii.
From S2P Require Import Prelude JsValue Mappers Dom Html.

Open Scope string_scope.

Import ShowMapper EpisodeMapper ShowListRenderer EpisodeListRenderer.

(** The continuation an outstanding request resumes. *)
Inductive task :=
| SearchTask      (** [searchForShowAndDisplay] at line 69 *)
| EpisodesTask.   (** [getEpisodesAndDisplay] at line 114 *)

Record world := mk_world {
  page : dom;
  pending : list (nat * task);
  issued : list (nat * request);
  next_req : nat;
  uncaught : list js_error
}.

Inductive event :=
| EvInput (term : string)
| EvSubmit
| EvClick (card : nat)
| EvSettle (req : nat) (outcome : res jsval).

(** The page as it is loaded: no shows, no episodes, [#episodesArea]
    hidden, the search box empty. *)
Definition init_world : world := mk_world (mk_dom [] [] false "") [] [] 0 [].

Definition set_page (d : dom) (w : world) : world :=
  mk_world d (pending w) (issued w) (next_req w) (uncaught w).

(** [axios.get] sends the request and the caller suspends on it. *)
Definition issue (t : task) (rq : request) (w : world) : world :=
  mk_world (page w) ((pending w) ++ [(next_req w, t)])%list
    ((issued w) ++ [(next_req w, rq)])%list (S (next_req w)) (uncaught w).

Fixpoint find_task (k : nat) (ps : list (nat * task)) : option task :=
  match ps with
  | [] => None
  | (k', t) :: ps => if bool_decide (k = k') then Some t else find_task k ps
  end.

Definition drop_task (k : nat) (ps : list (nat * task)) : list (nat * task) :=
  filter (fun p => p.1 <> k) ps.

Module SearchController.

(** Lines 75-77 and 67-69 up to the [await]: the default navigation is
    prevented, the term is read from the search box, and
    [getShowsByTerm(term)] sends its request. *)
Definition searchForm_submit (w : world) : world :=
  issue SearchTask (getShowsByTerm_request (searchForm_term (page w))) w.

(** Lines 69-72 after the [await]: the mapper's result, then
    [$episodesArea.hide()] and [populateShows(shows)]. *)
Definition searchForShowAndDisplay_resume (r : res jsval) : stres dom unit :=
  shows ← st_lift (getShowsByTerm_resume r);
  _ ← episodesArea_hide;
  populateShows shows.

End SearchController.

Module EpisodeController.

(** Lines 111-114 up to the [await], for a click on the Episodes button
    of card [i] of [#showsList]. *)
Definition getEpisodesAndDisplay_click `{Browser} (i : nat) (w : world) : option world :=
  card ← showsList (page w) !! i;
  Some (issue EpisodesTask (getEpisodesOfShow_request (closest_show_id card)) w).

(** Lines 114-115 after the [await]. *)
Definition getEpisodesAndDisplay_resume (r : res jsval) : stres dom unit :=
  episodes ← st_lift (getEpisodesOfShow_resume r);
  populateEpisodes episodes.

End EpisodeController.

Import SearchController EpisodeController.
Import ShowMapperSpec EpisodeMapperSpec.

(** A request settles: its continuation runs on the page; what it did
    before an exception stays done, and the exception becomes an
    unhandled rejection of the handler's promise. *)
Definition settle (k : nat) (r : res jsval) (w : world) : option world :=
  t ← find_task k (pending w);
  let run := match t with
             | SearchTask => searchForShowAndDisplay_resume r
             | EpisodesTask => getEpisodesAndDisplay_resume r
             end in
  let '(d, out) := run (page w) in
  Some (mk_world d (drop_task k (pending w)) (issued w) (next_req w)
          (match out with Ok _ => uncaught w | Throw e => (uncaught w ++ [e])%list end)).

Definition input_term (s : string) (w : world) : world :=
  set_page (mk_dom (showsList (page w)) (episodesList (page w))
              (episodesArea_visible (page w)) s) w.

Definition handle `{Browser} (e : event) (w : world) : option world :=
  match e with
  | EvInput s => Some (input_term s w)
  | EvSubmit => Some (searchForm_submit w)
  | EvClick i => getEpisodesAndDisplay_click i w
  | EvSettle k r => settle k r w
  end.

Inductive step `{Browser} : world -> world -> Prop :=
| step_event e w w' : handle e w = Some w' -> step w w'.

Definition reachable `{Browser} (w : world) : Prop := star step init_world w.

Fixpoint run_events `{Browser} (es : list event) (w : world) : option world :=
  match es with
  | [] => Some w
  | e :: es => w' ← handle e w; run_events es w'
  end.

(** ** Properties of the controllers *)

Definition world_wf (w : world) : Prop :=
  NoDup (map fst (pending w)) /\ Forall (fun p => p.1 < next_req w) (pending w) /\
  map fst (issued w) = seq 0 (next_req w).

Module ControllerSpec.

Lemma all_nonnullish_map_obj (f : jsval -> jsval) l :
  (forall x, nullish (f x) = false) -> all_nonnullish (map f l) = true.
Proof. intros Hf. induction l as [|x l IH]; simpl; [done|]. by rewrite Hf, IH. Qed.

Lemma searchForShowAndDisplay_resume_run r d :
  searchForShowAndDisplay_resume r d =
  match getShowsByTerm_resume r with
  | Ok shows => (set_showsList (map card_of shows) (set_episodesArea_visible false d), Ok tt)
  | Throw e => (d, Throw e)
  end.
Proof.
  unfold searchForShowAndDisplay_resume. rewrite stres_bind_run. unfold st_lift.
  destruct (getShowsByTerm_resume r) as [shows|e] eqn:E; [|done].
  simpl. rewrite stres_bind_run. simpl. rewrite RendererSpec.populateShows_run.
  destruct (getShowsByTerm_resume_Ok _ _ E) as [l ->].
  assert (Ha : all_nonnullish (map (fun info => expected_show (read info "show")) l) = true)
    by (by apply all_nonnullish_map_obj).
  by rewrite Ha, nonnullish_prefix_all.
Qed.

Lemma getEpisodesAndDisplay_resume_run r d :
  getEpisodesAndDisplay_resume r d =
  match getEpisodesOfShow_resume r with
  | Ok eps => (set_episodesArea_visible true (set_episodesList (map item_of eps) d), Ok tt)
  | Throw e => (d, Throw e)
  end.
Proof.
  unfold getEpisodesAndDisplay_resume. rewrite stres_bind_run. unfold st_lift.
  destruct (getEpisodesOfShow_resume r) as [eps|e] eqn:E; [|done].
  rewrite RendererSpec.populateEpisodes_run.
  destruct (getEpisodesOfShow_resume_Ok _ _ E) as [l ->].
  by rewrite all_nonnullish_map_obj.
Qed.

Lemma settle_search_run w k r :
  find_task k (pending w) = Some SearchTask ->
  settle k r w =
  Some (mk_world
    (match getShowsByTerm_resume r with
     | Ok shows => set_showsList (map card_of shows) (set_episodesArea_visible false (page w))
     | Throw _ => page w
     end)
    (drop_task k (pending w)) (issued w) (next_req w)
    (match getShowsByTerm_resume r with
     | Ok _ => uncaught w
     | Throw e => (uncaught w ++ [e])%list
     end)).
Proof.
  intros Hk. unfold settle. rewrite Hk. simpl.
  rewrite searchForShowAndDisplay_resume_run. by destruct (getShowsByTerm_resume r).
Qed.

(** C7. Settling a search request runs the rest of
    [searchForShowAndDisplay] on the page as it is then, whatever other
    requests are outstanding and whatever the search box now holds: if
    the mapper resolves, [#episodesArea] is hidden and [#showsList] holds
    exactly the cards of the mapped shows (so the search that settles
    last decides the list); if it rejects, the page is left as it was and
    the rejection is unhandled.  Either way the request is no longer
    outstanding. *)
Theorem settle_search_spec w k r :
  find_task k (pending w) = Some SearchTask ->
  settle k r w =
  Some (mk_world
    (match getShowsByTerm_resume r with
     | Ok shows => set_showsList (map card_of shows) (set_episodesArea_visible false (page w))
     | Throw _ => page w
     end)
    (drop_task k (pending w)) (issued w) (next_req w)
    (match getShowsByTerm_resume r with
     | Ok _ => uncaught w
     | Throw e => (uncaught w ++ [e])%list
     end)).
Proof. apply settle_search_run. Qed.

Lemma settle_episodes_run w k r :
  find_task k (pending w) = Some EpisodesTask ->
  settle k r w =
  Some (mk_world
    (match getEpisodesOfShow_resume r with
     | Ok eps => set_episodesArea_visible true (set_episodesList (map item_of eps) (page w))
     | Throw _ => page w
     end)
    (drop_task k (pending w)) (issued w) (next_req w)
    (match getEpisodesOfShow_resume r with
     | Ok _ => uncaught w
     | Throw e => (uncaught w ++ [e])%list
     end)).
Proof.
  intros Hk. unfold settle. rewrite Hk. simpl.
  rewrite getEpisodesAndDisplay_resume_run. by destruct (getEpisodesOfShow_resume r).
Qed.

(** C8. Settling an episodes request runs the rest of
    [getEpisodesAndDisplay]: if the mapper resolves, [#episodesList]
    holds exactly one item per episode and [#episodesArea] becomes
    visible; if it rejects, the page is left as it was and the rejection
    is unhandled. *)
Theorem settle_episodes_spec w k r :
  find_task k (pending w) = Some EpisodesTask ->
  settle k r w =
  Some (mk_world
    (match getEpisodesOfShow_resume r with
     | Ok eps => set_episodesArea_visible true (set_episodesList (map item_of eps) (page w))
     | Throw _ => page w
     end)
    (drop_task k (pending w)) (issued w) (next_req w)
    (match getEpisodesOfShow_resume r with
     | Ok _ => uncaught w
     | Throw e => (uncaught w ++ [e])%list
     end)).
Proof. apply settle_episodes_run. Qed.

End ControllerSpec.

Module Invariants.
Import ControllerSpec.

Section WithBrowser.
Context `{Browser}.

Lemma run_events_star es w0 w :
  star step init_world w0 -> run_events es w0 = Some w -> reachable w.
Proof.
  revert w0; induction es as [|e es IH]; intros w0 Hs; simpl.
  - by intros [= <-].
  - destruct (handle e w0) as [w1|] eqn:He; simpl; [|discriminate].
    apply IH. eapply star_right; [exact Hs|]. by econstructor.
Qed.

Lemma run_events_reachable es w : run_events es init_world = Some w -> reachable w.
Proof. apply run_events_star. constructor. Qed.

Lemma settle_bookkeeping k r w w' :
  settle k r w = Some w' ->
  is_Some (find_task k (pending w)) /\ pending w' = drop_task k (pending w) /\
  issued w' = issued w /\ next_req w' = next_req w.
Proof.
  unfold settle. destruct (find_task k (pending w)) as [t|]; simpl; [|discriminate].
  repeat case_match; intros [= <-]; simpl; eauto.
Qed.

Lemma NoDup_map_fst_filter (P : nat * task -> Prop) `{forall p, Decision (P p)} ps :
  NoDup (map fst ps) -> NoDup (map fst (filter P ps)).
Proof.
  induction ps as [|p ps IH]; simpl; [done|]. rewrite NoDup_cons. intros [Hp Hps].
  rewrite filter_cons. case_decide; simpl; [|by apply IH].
  rewrite NoDup_cons. split; [|by apply IH].
  intros Hin. apply Hp. apply list_elem_of_In in Hin. apply list_elem_of_In.
  apply in_map_iff in Hin as (q & <- & Hq). apply in_map_iff. exists q. split; [done|].
  apply list_elem_of_In in Hq. apply list_elem_of_filter in Hq as [_ Hq].
  by apply list_elem_of_In.
Qed.

Lemma issue_wf t rq w : world_wf w -> world_wf (issue t rq w).
Proof.
  intros (Hnd & Hlt & Hiss). unfold issue, world_wf; cbn [pending issued next_req]. split_and!.
  - rewrite map_app. simpl. apply NoDup_app. split_and!; [done| |apply NoDup_singleton].
    intros x Hx ->%list_elem_of_singleton. apply list_elem_of_In, in_map_iff in Hx as (p & Hp & Hin).
    rewrite Forall_forall in Hlt. specialize (Hlt p (proj2 (list_elem_of_In _ _) Hin)). lia.
  - apply Forall_app. split; [|constructor; simpl; [lia|done]].
    eapply Forall_impl; [exact Hlt|]. simpl. lia.
  - by rewrite map_app, Hiss, seq_S.
Qed.

Lemma handle_wf e w w' : handle e w = Some w' -> world_wf w -> world_wf w'.
Proof.
  destruct e as [s| |i|k r]; simpl.
  - intros [= <-]. done.
  - intros [= <-]. apply issue_wf.
  - unfold getEpisodesAndDisplay_click. destruct (showsList (page w) !! i); simpl; [|discriminate].
    intros [= <-]. apply issue_wf.
  - intros (_ & Hp & Hi & Hn)%settle_bookkeeping (Hnd & Hlt & Hiss).
    unfold world_wf. rewrite Hp, Hi, Hn. split_and!; [by apply NoDup_map_fst_filter| |done].
    rewrite Forall_forall in *. intros x [_ Hx]%list_elem_of_filter. by apply Hlt.
Qed.

Lemma reachable_world_wf w : reachable w -> world_wf w.
Proof.
  intros Hr. eapply (star_invariant step world_wf); [|exact Hr|].
  - intros a b Hab. inversion Hab as [e ? ? He]. by apply (handle_wf e).
  - unfold world_wf; simpl. split_and!; constructor.
Qed.

End WithBrowser.
End Invariants.

Module PageSpec.
Import ControllerSpec Invariants DataAttrSpec ClosestSpec.

Section WithLaws.
Context `{BrowserLaws}.

(** C9. Clicking the Episodes button of a card requests the episodes
    URL built from the very text the card was rendered with: the request
    goes to [/shows/<ToString(show.id)>/episodes], as long as that text
    contains no double quote or ampersand and is not wrapped in braces or
    brackets, and the show's other fields leave the card's elements as
    the template writes them ([card_inert]). *)
Theorem click_requests_card_id w i show :
  showsList (page w) !! i = Some (card_of show) ->
  has_char dq_char (to_string (read show "id")) = false ->
  has_char "&"%char (to_string (read show "id")) = false ->
  rbrace (to_string (read show "id")) = false ->
  card_inert show = true ->
  exists w', handle (EvClick i) w = Some w' /\
    last (issued w') = Some (next_req w,
      mk_request (tvmaze_api +:+ "/shows/" +:+ to_string (read show "id") +:+ "/episodes") []).
Proof.
  intros Hi Hq Ha Hr Hc. simpl. unfold getEpisodesAndDisplay_click. rewrite Hi. simpl.
  eexists. split; [reflexivity|]. unfold issue. simpl. rewrite last_snoc.
  unfold getEpisodesOfShow_request.
  by rewrite closest_show_id_card_of, jq_getData_to_string.
Qed.

(** C10. Round trip of a show's identifier through the page: for a show
    whose [id] is a safe integer and whose other fields leave the card's
    elements as the template writes them, the value
    [$(evt.target).closest(".Show").data("show-id")] reads back from the
    parsed card is that same number. *)
Theorem show_id_roundtrip show n :
  read show "id" = JNum n -> js_safe n = true -> card_inert show = true ->
  closest_show_id (card_of show) = JNum n.
Proof.
  intros Hid Hs Hc.
  rewrite closest_show_id_card_of; rewrite ?Hid; simpl;
    [by apply jq_getData_number|by apply number_to_string_no_char..|done].
Qed.

End WithLaws.
End PageSpec.

Module Ordering.
Import ControllerSpec Invariants.

Lemma find_task_drop_ne k k' ps : k <> k' -> find_task k (drop_task k' ps) = find_task k ps.
Proof.
  intros Hne. induction ps as [|[j t] ps IH]; [done|].
  unfold drop_task in *. rewrite filter_cons. simpl.
  case_decide as Hj; simpl; rewrite IH; [done|].
  simpl in Hj. assert (j = k') by (destruct (decide (j = k')); [done|contradiction]).
  subst. by rewrite bool_decide_eq_false_2.
Qed.

Lemma find_task_fresh n t ps :
  Forall (fun p => p.1 < n) ps -> find_task n (ps ++ [(n, t)])%list = Some t.
Proof.
  induction 1 as [|[j t'] ps Hj _ IH]; simpl; [by rewrite bool_decide_eq_true_2|].
  simpl in Hj. rewrite bool_decide_eq_false_2 by lia. done.
Qed.

Section WithBrowser.
Context `{Browser}.

(** C11. Responses are not ordered by submission: when two searches are
    outstanding and both succeed, settling the later-submitted one first
    and the earlier one second leaves [#showsList] with the earlier
    search's shows, although a newer search was made.  Nothing in the
    code discards a superseded response. *)
Theorem out_of_order_searches w k1 k2 r1 r2 shows1 shows2 :
  find_task k1 (pending w) = Some SearchTask ->
  find_task k2 (pending w) = Some SearchTask -> k1 <> k2 ->
  getShowsByTerm_resume r1 = Ok shows1 -> getShowsByTerm_resume r2 = Ok shows2 ->
  exists w2, run_events [EvSettle k2 r2; EvSettle k1 r1] w = Some w2 /\
    showsList (page w2) = map card_of shows1 /\ episodesArea_visible (page w2) = false.
Proof.
  intros H1 H2 Hne R1 R2. simpl. rewrite (settle_search_run w k2 r2 H2), R2. simpl.
  rewrite (settle_search_run _ k1 r1); simpl; [|by rewrite find_task_drop_ne].
  rewrite R1. simpl. eexists. split; [reflexivity|]. done.
Qed.

(** C12. The episodes area is not hidden when a search is submitted, only
    once the search's response has been mapped (line 71 comes after the
    [await] of line 69).  So a search whose request is rejected leaves
    the page exactly as it was, the previous show's episodes still
    visible if they were, and records an unhandled rejection. *)
Theorem failed_search_keeps_page w e :
  world_wf w ->
  exists w2, run_events [EvSubmit; EvSettle (next_req w) (Throw e)] w = Some w2 /\
    page w2 = page w /\ uncaught w2 = (uncaught w ++ [e])%list.
Proof.
  intros (_ & Hlt & _). simpl. unfold searchForm_submit.
  rewrite (settle_search_run _ (next_req w)); [|apply find_task_fresh; exact Hlt].
  simpl. eexists. split; [reflexivity|]. done.
Qed.

End WithBrowser.
End Ordering.


(** ** The show list over a trace

    Spec section 5: across searches there is no mutual exclusion, and
    whichever search resolves last determines the rendered show list.
    The abstract model of [#showsList] is a register that only the
    search requests that resolve write: [renders_shows] says what an
    event writes, [last_render] replays a trace keeping the last value
    written. *)
Module Traces.
Import ControllerSpec.

(** Replaying a trace with an abstract effect of each event on an
    observation of the world. *)
Section Replay.
Context `{Browser}.
Variable A : Type.
Variable eff : world -> event -> A -> A.

Fixpoint replay (es : list event) (w : world) (a : A) : option A :=
  match es with
  | [] => Some a
  | e :: es => w' ← handle e w; replay es w' (eff w e a)
  end.

Variable obs : world -> A.
Hypothesis handle_obs : forall e w w', handle e w = Some w' -> obs w' = eff w e (obs w).

Lemma replay_run es w w' : run_events es w = Some w' -> replay es w (obs w) = Some (obs w').
Proof.
  revert w; induction es as [|e es IH]; intros w; simpl; [by intros [= <-]|].
  destruct (handle e w) as [w1|] eqn:He; simpl; [|discriminate].
  intros Hrun. rewrite <- (handle_obs _ _ _ He). by apply IH.
Qed.
End Replay.

(** ** The show list *)

Definition renders_shows (w : world) (e : event) : option (list jsval) :=
  match e with
  | EvSettle k r =>
      match find_task k (pending w), getShowsByTerm_resume r with
      | Some SearchTask, Ok shows => Some shows
      | _, _ => None
      end
  | _ => None
  end.

Definition shows_effect (w : world) (e : event) (shown : list string) : list string :=
  match renders_shows w e with Some shows => map card_of shows | None => shown end.

(** ** The episodes view: the items of [#episodesList] and whether
    [#episodesArea] is visible *)

Definition episodes_view (w : world) : list string * bool :=
  (episodesList (page w), episodesArea_visible (page w)).

(** A resolving episodes request writes its complete list of items and
    shows the area; a resolving search hides it. *)
Definition episodes_effect (w : world) (e : event) (v : list string * bool) : list string * bool :=
  match e with
  | EvSettle k r =>
      match find_task k (pending w) with
      | Some EpisodesTask =>
          match getEpisodesOfShow_resume r with Ok eps => (map item_of eps, true) | Throw _ => v end
      | Some SearchTask =>
          match getShowsByTerm_resume r with Ok _ => (v.1, false) | Throw _ => v end
      | None => v
      end
  | _ => v
  end.

Section WithBrowser.
Context `{Browser}.

Definition last_render (es : list event) (w : world) (shown : list string) : option (list string) :=
  replay _ shows_effect es w shown.

Definition last_episodes (es : list event) (w : world) (v : list string * bool) : option (list string * bool) :=
  replay _ episodes_effect es w v.

(** One event writes the register or leaves [#showsList] alone. *)
Lemma handle_showsList e w w' :
  handle e w = Some w' -> showsList (page w') = shows_effect w e (showsList (page w)).
Proof.
  unfold shows_effect. destruct e as [s| |i|k r]; simpl.
  - by intros [= <-].
  - by intros [= <-].
  - unfold getEpisodesAndDisplay_click. destruct (showsList (page w) !! i); simpl; [|discriminate].
    by intros [= <-].
  - destruct (find_task k (pending w)) as [[]|] eqn:Ek.
    + rewrite (settle_search_run _ _ _ Ek). intros [= <-]. simpl.
      by destruct (getShowsByTerm_resume r).
    + rewrite (settle_episodes_run _ _ _ Ek). intros [= <-]. simpl.
      by destruct (getEpisodesOfShow_resume r).
    + unfold settle. by rewrite Ek.
Qed.

Lemma handle_episodes_view e w w' :
  handle e w = Some w' -> episodes_view w' = episodes_effect w e (episodes_view w).
Proof.
  destruct e as [s| |i|k r]; simpl.
  - by intros [= <-].
  - by intros [= <-].
  - unfold getEpisodesAndDisplay_click. destruct (showsList (page w) !! i); simpl; [|discriminate].
    by intros [= <-].
  - destruct (find_task k (pending w)) as [[]|] eqn:Ek.
    + rewrite (settle_search_run _ _ _ Ek). intros [= <-]. unfold episodes_view. simpl.
      by destruct (getShowsByTerm_resume r).
    + rewrite (settle_episodes_run _ _ _ Ek). intros [= <-]. unfold episodes_view. simpl.
      by destruct (getEpisodesOfShow_resume r).
    + unfold settle. by rewrite Ek.
Qed.

(** C24. Refinement of the last-writer-wins register of spec section 5:
    after any sequence of events, [#showsList] holds the cards of the
    search that resolved last, or the cards it held before when no
    search resolved.  Submission order plays no part, failed searches
    write nothing, and no other event touches the list. *)
Theorem showsList_last_render es w w' :
  run_events es w = Some w' -> last_render es w (showsList (page w)) = Some (showsList (page w')).
Proof. apply (replay_run _ _ (fun w => showsList (page w))), handle_showsList. Qed.

(** C25. The episodes view over any trace: [#episodesList] holds
    exactly the items of the complete episode list of the episodes
    request that resolved last (never part of a list, never two lists),
    [#episodesArea] is visible if and only if that resolution came after
    the last search that resolved, and failed requests, clicks, typing
    and submitting change neither. *)
Theorem episodes_last_render es w w' :
  run_events es w = Some w' -> last_episodes es w (episodes_view w) = Some (episodes_view w').
Proof. apply (replay_run _ _ episodes_view), handle_episodes_view. Qed.

End WithBrowser.
End Traces.

Module Scenarios.
Import ControllerSpec Invariants PageSpec Ordering ClosestSpec Traces.

(** A browser environment for running concrete traces: [JSON.parse]
    rejects every text, and decoding leaves attribute values unchanged. *)
#[export] Instance trace_browser : Browser :=
  {| json_parse := fun _ => None; decode_char_refs := fun s => s |}.
#[export] Instance trace_browser_laws : BrowserLaws.
Proof. constructor; [reflexivity | intros s v _ Hj; discriminate Hj]. Qed.

Definition one_show_body (id : Z) (name : string) : jsval :=
  JArr [JObj [("score", JNum 1); ("show", JObj [("id", JNum id); ("name", JStr name);
                                                ("summary", JNull); ("image", JNull)])]].

Definition one_show (id : Z) (name : string) : jsval :=
  expected_show (JObj [("id", JNum id); ("name", JStr name); ("summary", JNull); ("image", JNull)]).

(** The page after searching "batman" and receiving the spec's two shows. *)
Definition batman_trace : list event :=
  [EvInput "batman"; EvSubmit; EvSettle 0 (Ok ShowMapperSpec.batman_search_body)].

Definition batman_world : world :=
  default init_world (run_events batman_trace init_world).

Definition two_searches : world :=
  default init_world (run_events [EvInput "a"; EvSubmit; EvInput "b"; EvSubmit] init_world).

Lemma settle_search_spec_witness :
  find_task 0 (pending (searchForm_submit init_world)) = Some SearchTask /\
  settle 0 (Ok ShowMapperSpec.batman_search_body) (searchForm_submit init_world) =
  Some (mk_world
    (match getShowsByTerm_resume (Ok ShowMapperSpec.batman_search_body) with
     | Ok shows => set_showsList (map card_of shows)
                     (set_episodesArea_visible false (page (searchForm_submit init_world)))
     | Throw _ => page (searchForm_submit init_world)
     end)
    (drop_task 0 (pending (searchForm_submit init_world))) (issued (searchForm_submit init_world))
    (next_req (searchForm_submit init_world))
    (match getShowsByTerm_resume (Ok ShowMapperSpec.batman_search_body) with
     | Ok _ => uncaught (searchForm_submit init_world)
     | Throw e => (uncaught (searchForm_submit init_world) ++ [e])%list
     end)).
Proof. split; [reflexivity|]. apply settle_search_spec. reflexivity. Defined.

Definition episodes_pending : world :=
  issue EpisodesTask (getEpisodesOfShow_request (JNum 139)) init_world.

Lemma settle_episodes_spec_witness :
  find_task 0 (pending episodes_pending) = Some EpisodesTask /\
  settle 0 (Ok EpisodeMapperSpec.pilot_body) episodes_pending =
  Some (mk_world
    (match getEpisodesOfShow_resume (Ok EpisodeMapperSpec.pilot_body) with
     | Ok eps => set_episodesArea_visible true (set_episodesList (map item_of eps) (page episodes_pending))
     | Throw _ => page episodes_pending
     end)
    (drop_task 0 (pending episodes_pending)) (issued episodes_pending) (next_req episodes_pending)
    (match getEpisodesOfShow_resume (Ok EpisodeMapperSpec.pilot_body) with
     | Ok _ => uncaught episodes_pending
     | Throw e => (uncaught episodes_pending ++ [e])%list
     end)).
Proof. split; [reflexivity|]. apply settle_episodes_spec. reflexivity. Defined.

Lemma batman_reachable : reachable batman_world.
Proof. apply (run_events_reachable batman_trace). reflexivity. Qed.

(** A show whose [summary] is [null] (TVMaze sends [null] for shows
    without a summary) is rendered with the text [null] in its card. *)
Example null_summary_card :
  card_of (one_show 481 "Batman Beyond") =
  show_card_html "481" missing_url_image "Batman Beyond" "null".
Proof. reflexivity. Qed.

(** The first show of the spec's scenario, as the response carries it. *)
Definition batman_show : jsval :=
  JObj [("id", JNum 975); ("name", JStr "Batman"); ("summary", JStr "<p>The Caped Crusader</p>");
        ("image", JObj [("medium", JStr "https://static.tvmaze.com/m/975.jpg");
                        ("original", JStr "https://static.tvmaze.com/o/975.jpg")])].

Lemma click_requests_card_id_witness :
  showsList (page batman_world) !! 0 = Some (card_of (expected_show batman_show)) /\
  exists w', handle (EvClick 0) batman_world = Some w' /\
    last (issued w') = Some (next_req batman_world,
      mk_request (tvmaze_api +:+ "/shows/" +:+ to_string (read (expected_show batman_show) "id")
                  +:+ "/episodes") []).
Proof.
  split; [vm_compute; reflexivity|].
  apply click_requests_card_id; vm_compute; reflexivity.
Defined.

Lemma show_id_roundtrip_witness :
  read (expected_show batman_show) "id" = JNum 975 /\ js_safe 975 = true /\
  card_inert (expected_show batman_show) = true /\
  closest_show_id (card_of (expected_show batman_show)) = JNum 975.
Proof.
  split; [reflexivity|]. split; [reflexivity|]. split; [vm_compute; reflexivity|].
  apply show_id_roundtrip; [reflexivity..|vm_compute; reflexivity].
Defined.

Lemma out_of_order_searches_witness :
  exists w2, run_events [EvSettle 1 (Ok (one_show_body 2 "B")); EvSettle 0 (Ok (one_show_body 1 "A"))]
               two_searches = Some w2 /\
    showsList (page w2) = map card_of [one_show 1 "A"] /\ episodesArea_visible (page w2) = false.
Proof.
  apply (out_of_order_searches two_searches 0 1 _ _ [one_show 1 "A"] [one_show 2 "B"]);
    first [vm_compute; reflexivity | lia].
Defined.

(** Batman's first show clicked and its episodes displayed. *)
Definition episodes_shown : world :=
  default init_world (run_events (batman_trace ++ [EvClick 0; EvSettle 1 (Ok EpisodeMapperSpec.pilot_body)])%list
                        init_world).

Lemma failed_search_keeps_page_witness :
  episodesArea_visible (page episodes_shown) = true /\ world_wf episodes_shown /\
  exists w2, run_events [EvSubmit; EvSettle (next_req episodes_shown) (Throw (NetworkError None))]
               episodes_shown = Some w2 /\
    page w2 = page episodes_shown /\ uncaught w2 = (uncaught episodes_shown ++ [NetworkError None])%list.
Proof.
  split; [vm_compute; reflexivity|].
  assert (Hwf : world_wf episodes_shown)
    by (unfold world_wf; vm_compute; split_and!; [constructor|constructor|reflexivity]).
  split; [exact Hwf|]. apply failed_search_keeps_page. exact Hwf.
Defined.

Definition episodes_trace : list event :=
  (batman_trace ++ [EvClick 0; EvSettle 1 (Ok EpisodeMapperSpec.pilot_body)])%list.

Lemma episodes_last_render_witness :
  run_events episodes_trace init_world = Some episodes_shown /\
  last_episodes episodes_trace init_world (episodes_view init_world) = Some (episodes_view episodes_shown).
Proof. split; [vm_compute; reflexivity|]. apply episodes_last_render. vm_compute. reflexivity. Defined.

Lemma closest_show_id_card_witness :
  closest_show_id (show_card_html "975" "a.jpg" "Batman" "<p>The <b>Caped</b> Crusader</p>") =
  card_data_show_id (show_card_html "975" "a.jpg" "Batman" "<p>The <b>Caped</b> Crusader</p>").
Proof. apply closest_show_id_card; vm_compute; reflexivity. Defined.

Lemma name_injection_redirects_witness :
  card_data_show_id (show_card_html "975" "a.jpg" (Injection.redirect_name "666") "<p>s</p>") =
    jq_getData (decode_char_refs "975") /\
  closest_show_id (show_card_html "975" "a.jpg" (Injection.redirect_name "666") "<p>s</p>") =
    jq_getData (decode_char_refs "666").
Proof. apply Injection.name_injection_redirects; vm_compute; reflexivity. Defined.

(** Two searches settling out of submission order. *)
Definition crossed : list event :=
  [EvSettle 1 (Ok (one_show_body 2 "B")); EvSettle 0 (Ok (one_show_body 1 "A"))].

Definition crossed_world : world := default init_world (run_events crossed two_searches).

Lemma showsList_last_render_witness :
  run_events crossed two_searches = Some crossed_world /\
  last_render crossed two_searches (showsList (page two_searches)) = Some (showsList (page crossed_world)).
Proof. split; [vm_compute; reflexivity|]. apply showsList_last_render. vm_compute. reflexivity. Defined.

End Scenarios.
