(* ===== verification/Server.v ===== *)
(** * The TVMaze service behind [axios.get], and the program end to end

    The two requests of the program (lines 20 and 86) go to the TVMaze
    API.  This file models the service as spec section 6 documents it: a
    catalogue of shows and their episodes, served as JSON by
    [GET /search/shows?q=term] (the shows the term matches, each wrapped
    as [{show}]) and [GET /shows/:id/episodes] (the show's episodes, a
    [404] rejection for an unknown show or an id segment that is not an
    integer numeral).  [tvmaze_server c] is the [HttpClient] instance of
    a catalogue [c].

    The catalogue's search is a function of the term: TVMaze's ranking is
    not documented and the program does not depend on it.  Scores and the
    fields of a show the program never reads are not served. *)

From stdpp Require Import base list strings.
From Stdlib Require Import ZArith Ascii.
From S2P Require Import Prelude JsValue Mappers Dom Html Controllers.

Open Scope string_scope.

Module Catalog.
Import ApiSchema.

Record catalog := mk_catalog {
  cat_search : string -> list show;
  cat_episodes : Z -> option (list episode)
}.

(** The integers of a record are safe integers, as TVMaze's are. *)
Definition show_ok (s : show) : bool := js_safe (show_id s).
Definition episode_ok (e : episode) : bool :=
  js_safe (ep_id e) && js_safe (ep_season e) && js_safe (ep_number e).

(** ** The JSON the service sends *)

Definition nullable {A} (f : A -> jsval) (o : option A) : jsval :=
  match o with Some a => f a | None => JNull end.

Definition encode_image (im : image) : jsval :=
  JObj [("medium", JStr (medium im)); ("original", JStr (original im))].

Definition encode_show (s : show) : jsval :=
  JObj [("id", JNum (show_id s)); ("name", JStr (show_name s));
        ("summary", nullable JStr (show_summary s));
        ("image", nullable encode_image (show_image s))].

Definition encode_search_result (s : show) : jsval := JObj [("show", encode_show s)].

Definition encode_episode (e : episode) : jsval :=
  JObj [("id", JNum (ep_id e)); ("name", JStr (ep_name e));
        ("season", JNum (ep_season e)); ("number", JNum (ep_number e))].

(** ** Routing *)

Definition search_url : string := tvmaze_api +:+ "/search/shows".
Definition shows_prefix : string := tvmaze_api +:+ "/shows/".
Definition episodes_suffix : string := "/episodes".

(** The string before a suffix. *)
Fixpoint strip_suffix (suf s : string) : option string :=
  if bool_decide (s = suf) then Some EmptyString
  else match s with
       | EmptyString => None
       | String c s => String c <$> strip_suffix suf s
       end.

(** The show id of an episodes URL. *)
Definition episodes_route (url : string) : option Z :=
  (strip_prefix shows_prefix url ≫= strip_suffix episodes_suffix) ≫= canonical_int.

Definition tvmaze_get (c : catalog) (rq : request) : res jsval :=
  if bool_decide (req_url rq = search_url) then
    match attr "q" (req_params rq) with
    | Some q => Ok (JArr (map encode_search_result (cat_search c q)))
    | None => Throw (NetworkError (Some 400%Z))
    end
  else
    match episodes_route (req_url rq) ≫= cat_episodes c with
    | Some eps => Ok (JArr (map encode_episode eps))
    | None => Throw (NetworkError (Some 404%Z))
    end.

#[export] Instance tvmaze_server (c : catalog) : HttpClient := tvmaze_get c.

End Catalog.

(** ** What the service sends, read back *)
Module ServerFacts.
Import ApiSchema Records Catalog DataAttrSpec.

Lemma field_cons_eq {A} (dec : jsval -> option A) k v ps : field dec ((k, v) :: ps) k = dec v.
Proof. unfold field. simpl. by rewrite bool_decide_eq_true_2. Qed.

Lemma field_cons_ne {A} (dec : jsval -> option A) k k' v ps :
  k <> k' -> field dec ((k', v) :: ps) k = field dec ps k.
Proof. intros Hk. unfold field. simpl. by rewrite bool_decide_eq_false_2. Qed.

Ltac field_simpl :=
  repeat (rewrite field_cons_eq || rewrite field_cons_ne by discriminate).

Lemma decode_show_encode s : show_ok s = true -> decode_show (encode_show s) = Some s.
Proof.
  destruct s as [i n su [[m o]|]]; unfold show_ok; simpl; intros Hi;
    field_simpl; simpl; rewrite Hi; simpl; destruct su; simpl; [|done..].
  by field_simpl.
Qed.

Lemma decode_search_results l :
  forallb show_ok l = true ->
  decode_array decode_search_result (JArr (map encode_search_result l)) = Some l.
Proof.
  unfold decode_array. induction l as [|s l IH]; simpl; [done|]. intros [Hs Hl]%andb_true_iff.
  rewrite field_cons_eq, decode_show_encode by done. simpl. by rewrite IH.
Qed.

Lemma decode_episode_encode e : episode_ok e = true -> decode_episode (encode_episode e) = Some e.
Proof.
  destruct e as [i n s k]; unfold episode_ok; simpl.
  intros [[Hi Hs]%andb_true_iff Hk]%andb_true_iff. field_simpl. simpl.
  by rewrite Hi, Hs, Hk.
Qed.

Lemma decode_episodes l :
  forallb episode_ok l = true -> decode_array decode_episode (JArr (map encode_episode l)) = Some l.
Proof.
  unfold decode_array. induction l as [|e l IH]; [done|]. intros [He Hl]%andb_true_iff.
  cbn [map mapM]. rewrite decode_episode_encode by done. simpl. by rewrite IH.
Qed.

Lemma strip_suffix_app suf p : strip_suffix suf (p +:+ suf) = Some p.
Proof.
  induction p as [|c p IH].
  - change (EmptyString +:+ suf) with suf. destruct suf; simpl; [done|]. by rewrite bool_decide_eq_true_2.
  - change (String c p +:+ suf) with (String c (p +:+ suf)). simpl.
    rewrite bool_decide_eq_false_2; [by rewrite IH|].
    intros H. apply (f_equal String.length) in H. simpl in H. rewrite str_length_app in H. lia.
Qed.

(** The episodes URL line 86 builds is routed to the id it was built
    from, when that id's ToString is a canonical integer numeral. *)
Lemma episodes_route_request v :
  episodes_route (req_url (EpisodeMapper.getEpisodesOfShow_request v)) = canonical_int (to_string v).
Proof.
  unfold episodes_route, shows_prefix, EpisodeMapper.getEpisodesOfShow_request. cbn [req_url].
  rewrite <- str_app_assoc, strip_prefix_app. simpl.
  change "/episodes" with episodes_suffix. by rewrite strip_suffix_app.
Qed.

Lemma episodes_url_not_search v : req_url (EpisodeMapper.getEpisodesOfShow_request v) <> search_url.
Proof.
  intros H. apply (f_equal (strip_prefix shows_prefix)) in H. revert H.
  unfold shows_prefix, EpisodeMapper.getEpisodesOfShow_request. cbn [req_url].
  rewrite <- str_app_assoc, strip_prefix_app. vm_compute. discriminate.
Qed.

Lemma tvmaze_get_episodes c v :
  tvmaze_get c (EpisodeMapper.getEpisodesOfShow_request v) =
  match canonical_int (to_string v) ≫= cat_episodes c with
  | Some eps => Ok (JArr (map encode_episode eps))
  | None => Throw (NetworkError (Some 404%Z))
  end.
Proof.
  unfold tvmaze_get. rewrite bool_decide_eq_false_2 by apply episodes_url_not_search.
  by rewrite episodes_route_request.
Qed.

End ServerFacts.

(** ** The mappers against the service *)
Module MapperE2E.
Import ApiSchema Records Catalog ServerFacts ShowMapper EpisodeMapper ShowMapperSpec EpisodeMapperSpec.

Lemma server_search_resume c term :
  forallb show_ok (cat_search c term) = true ->
  getShowsByTerm_resume (tvmaze_get c (getShowsByTerm_request term)) =
  Ok (map (fun s => encode_show_rec (spec_show s)) (cat_search c term)).
Proof.
  intros Hok. unfold tvmaze_get.
  rewrite bool_decide_eq_true_2 by reflexivity. cbn [req_params getShowsByTerm_request attr].
  rewrite bool_decide_eq_true_2 by reflexivity.
  by apply search_body_refines, decode_search_results.
Qed.

Lemma server_episodes_resume c n eps :
  js_safe n = true -> cat_episodes c n = Some eps -> forallb episode_ok eps = true ->
  getEpisodesOfShow_resume (tvmaze_get c (getEpisodesOfShow_request (JNum n))) =
  Ok (map (fun e => encode_episode_rec (spec_episode e)) eps).
Proof.
  intros Hs He Hok. rewrite tvmaze_get_episodes. simpl.
  rewrite canonical_int_number_to_string by exact Hs. simpl.
  rewrite He. by apply episode_body_refines, decode_episodes.
Qed.

(** C19. [getShowsByTerm term] against the service resolves to the
    spec's records of the shows the catalogue matches for [term], in the
    catalogue's order: the request of line 20 reaches the search
    endpoint with [q = term], and the mapping of lines 22-30 turns each
    served show into its record with the medium image or the
    placeholder. *)
Theorem getShowsByTerm_server c term :
  forallb show_ok (cat_search c term) = true ->
  @getShowsByTerm (tvmaze_server c) term =
  Ok (map (fun s => encode_show_rec (spec_show s)) (cat_search c term)).
Proof. apply server_search_resume. Qed.

(** C20. [getEpisodesOfShow(id)] for a safe integer id of a show of the
    catalogue resolves to the spec's records of that show's episodes, in
    order: the id goes through the URL of line 86 as its decimal numeral
    and comes back as the same integer. *)
Theorem getEpisodesOfShow_server c n eps :
  js_safe n = true -> cat_episodes c n = Some eps -> forallb episode_ok eps = true ->
  @getEpisodesOfShow (tvmaze_server c) (JNum n) =
  Ok (map (fun e => encode_episode_rec (spec_episode e)) eps).
Proof. apply server_episodes_resume. Qed.

(** C21. Error path of the episode request: when the id's ToString is
    not the numeral of a show of the catalogue ([undefined] from a card
    without [data-show-id], a non-canonical numeral, an unknown show),
    the service answers 404 and [getEpisodesOfShow] rejects with that
    error, uncaught. *)
Theorem getEpisodesOfShow_server_404 c v :
  canonical_int (to_string v) ≫= cat_episodes c = None ->
  @getEpisodesOfShow (tvmaze_server c) v = Throw (NetworkError (Some 404%Z)).
Proof.
  intros Hn. unfold getEpisodesOfShow, http_get, tvmaze_server.
  by rewrite tvmaze_get_episodes, Hn.
Qed.

End MapperE2E.

(** ** The program against the service, through the event loop

    The network answers a request from the service: request [k] of the
    log settles with what [tvmaze_get] returns for it. *)
Module LoopE2E.
Import ApiSchema Records Catalog MapperE2E ShowMapper EpisodeMapper
  ShowListRenderer EpisodeListRenderer SearchController EpisodeController ControllerSpec
  Invariants Ordering ClosestSpec DataAttrSpec.

Fixpoint issued_request (k : nat) (l : list (nat * request)) : option request :=
  match l with
  | [] => None
  | (j, rq) :: l => if bool_decide (k = j) then Some rq else issued_request k l
  end.

Definition server_settle `{Browser} (c : catalog) (k : nat) (w : world) : option world :=
  rq ← issued_request k (issued w); handle (EvSettle k (tvmaze_get c rq)) w.

Lemma bind_Some {A B} (x : A) (f : A -> option B) : (Some x ≫= f) = f x.
Proof. done. Qed.

Lemma issued_request_fresh n rq l :
  Forall (fun p => p.1 < n) l -> issued_request n (l ++ [(n, rq)])%list = Some rq.
Proof.
  induction 1 as [|[j rq'] l Hj _ IH]; simpl; [by rewrite bool_decide_eq_true_2|].
  simpl in Hj. by rewrite bool_decide_eq_false_2 by lia.
Qed.

Lemma issued_below n (l : list (nat * request)) : map fst l = seq 0 n -> Forall (fun p => p.1 < n) l.
Proof.
  intros Hl. apply Forall_forall. intros p Hp%list_elem_of_In.
  apply (in_map fst) in Hp. rewrite Hl in Hp. apply in_seq in Hp. lia.
Qed.

Lemma drop_task_fresh n t ps : Forall (fun p => p.1 < n) ps -> drop_task n (ps ++ [(n, t)])%list = ps.
Proof.
  unfold drop_task. induction 1 as [|[j t'] ps Hj _ IH]; simpl in *.
  - rewrite filter_cons_False by (simpl; congruence). done.
  - rewrite filter_cons_True by (simpl; lia). by rewrite IH.
Qed.

Section WithBrowser.
Context `{Browser}.

(** C22. A search end to end: from any reachable page, typing [term],
    submitting, and the service answering the request the submit sent,
    leaves [#showsList] holding one card per show the catalogue matches,
    built from the spec's record of that show, [#episodesArea] hidden,
    and no request of the search outstanding. *)
Theorem search_end_to_end c w term :
  reachable w -> forallb show_ok (cat_search c term) = true ->
  exists w', (run_events [EvInput term; EvSubmit] w ≫= server_settle c (next_req w)) = Some w' /\
    showsList (page w') = map card_of (map (fun s => encode_show_rec (spec_show s)) (cat_search c term)) /\
    episodesArea_visible (page w') = false /\ pending w' = pending w.
Proof.
  intros Hr Hok. destruct (reachable_world_wf _ Hr) as (_ & Hlt & Hiss).
  change (run_events [EvInput term; EvSubmit] w) with (Some (searchForm_submit (input_term term w))).
  rewrite bind_Some. unfold server_settle.
  change (issued (searchForm_submit (input_term term w)))
    with (issued w ++ [(next_req w, getShowsByTerm_request term)])%list.
  rewrite issued_request_fresh by (by apply issued_below). rewrite bind_Some. cbn [handle].
  rewrite settle_search_run by (apply find_task_fresh, Hlt).
  rewrite server_search_resume by exact Hok.
  eexists. split; [reflexivity|]. split_and!; [reflexivity..|]. cbn [pending].
  by apply drop_task_fresh.
Qed.

End WithBrowser.

Section WithLaws.
Context `{BrowserLaws}.

(** The card of a served show gives back the show's id. *)
Lemma closest_show_id_served s :
  show_ok s = true -> card_inert (encode_show_rec (spec_show s)) = true ->
  closest_show_id (card_of (encode_show_rec (spec_show s))) = JNum (show_id s).
Proof.
  intros Hs Hc. rewrite closest_show_id_card_of by
    (try exact Hc; apply number_to_string_no_char; reflexivity).
  by apply jq_getData_number.
Qed.

(** C23. A click end to end: in a reachable page whose card [i] was
    rendered from the record of a show [s] of the catalogue (whose name,
    image and summary cannot inject markup), clicking its Episodes
    button and the service answering the request the click sent leaves
    [#episodesList] holding one item per episode the catalogue has for
    [s], [#episodesArea] visible, the show list untouched and no request
    of the click outstanding: the id written by the Show List Renderer is
    the one the Episode Controller sends and the service looks up. *)
Theorem click_end_to_end c w i s eps :
  reachable w ->
  showsList (page w) !! i = Some (card_of (encode_show_rec (spec_show s))) ->
  show_ok s = true -> card_inert (encode_show_rec (spec_show s)) = true ->
  cat_episodes c (show_id s) = Some eps -> forallb episode_ok eps = true ->
  exists w', (handle (EvClick i) w ≫= server_settle c (next_req w)) = Some w' /\
    episodesList (page w') = map item_of (map (fun e => encode_episode_rec (spec_episode e)) eps) /\
    episodesArea_visible (page w') = true /\ showsList (page w') = showsList (page w) /\
    pending w' = pending w.
Proof.
  intros Hr Hi Hs Hc He Hok. destruct (reachable_world_wf _ Hr) as (_ & Hlt & Hiss).
  cbn [handle]. unfold getEpisodesAndDisplay_click. rewrite Hi, bind_Some.
  rewrite closest_show_id_served by assumption. rewrite bind_Some. unfold server_settle.
  change (issued (issue EpisodesTask (getEpisodesOfShow_request (JNum (show_id s))) w))
    with (issued w ++ [(next_req w, getEpisodesOfShow_request (JNum (show_id s)))])%list.
  rewrite issued_request_fresh by (by apply issued_below). rewrite bind_Some. cbn [handle].
  rewrite settle_episodes_run by (apply find_task_fresh, Hlt).
  rewrite (server_episodes_resume c (show_id s) eps) by assumption.
  eexists. split; [reflexivity|]. split_and!; [reflexivity..|]. cbn [pending].
  by apply drop_task_fresh.
Qed.

End WithLaws.

End LoopE2E.

(** ** The scenarios of spec section 8 against a catalogue *)
Module E2EScenarios.
Import ApiSchema Records Catalog MapperE2E LoopE2E ShowMapper EpisodeMapper ShowMapperSpec EpisodeListRenderer
  ShowListRenderer Invariants Scenarios.

(** The catalogue of the spec's scenarios: the term "batman" matches the
    two shows of section 8, and show 975 has the one episode Pilot. *)
Definition pilot : episode := mk_episode 1 "Pilot" 1 1.

Definition demo_catalog : catalog :=
  mk_catalog (fun t => if bool_decide (t = "batman") then batman_shows else [])
             (fun n => if bool_decide (n = 975%Z) then Some [pilot] else None).

(** The first show of the scenario, the one with an image. *)
Definition batman : show := default (mk_show 0 "" None None) (head batman_shows).

Lemma getShowsByTerm_server_witness :
  @getShowsByTerm (tvmaze_server demo_catalog) "batman" =
  Ok (map (fun s => encode_show_rec (spec_show s)) (cat_search demo_catalog "batman")).
Proof. apply getShowsByTerm_server. reflexivity. Defined.

Lemma getEpisodesOfShow_server_witness :
  @getEpisodesOfShow (tvmaze_server demo_catalog) (JNum 975) =
  Ok (map (fun e => encode_episode_rec (spec_episode e)) [pilot]).
Proof. apply getEpisodesOfShow_server; reflexivity. Defined.

(** A card without [data-show-id] sends [/shows/undefined/episodes]. *)
Lemma getEpisodesOfShow_server_404_witness :
  @getEpisodesOfShow (tvmaze_server demo_catalog) JUndefined = Throw (NetworkError (Some 404%Z)).
Proof. apply getEpisodesOfShow_server_404. reflexivity. Defined.

Lemma search_end_to_end_witness :
  exists w', (run_events [EvInput "batman"; EvSubmit] init_world
                ≫= server_settle demo_catalog (next_req init_world)) = Some w' /\
    showsList (page w') =
      map card_of (map (fun s => encode_show_rec (spec_show s)) (cat_search demo_catalog "batman")) /\
    episodesArea_visible (page w') = false /\ pending w' = pending init_world.
Proof. apply search_end_to_end; [constructor|reflexivity]. Defined.

(** The page after the search of the scenario, answered by the service. *)
Definition searched : world :=
  default init_world (run_events [EvInput "batman"; EvSubmit] init_world ≫= server_settle demo_catalog 0).

Lemma searched_reachable : reachable searched.
Proof.
  apply (run_events_reachable
    [EvInput "batman"; EvSubmit; EvSettle 0 (tvmaze_get demo_catalog (getShowsByTerm_request "batman"))]).
  vm_compute. reflexivity.
Qed.

Lemma click_end_to_end_witness :
  exists w', (handle (EvClick 0) searched ≫= server_settle demo_catalog (next_req searched)) = Some w' /\
    episodesList (page w') = map item_of (map (fun e => encode_episode_rec (spec_episode e)) [pilot]) /\
    episodesArea_visible (page w') = true /\ showsList (page w') = showsList (page searched) /\
    pending w' = pending searched.
Proof.
  apply (click_end_to_end demo_catalog searched 0 batman [pilot]);
    first [exact searched_reachable | vm_compute; reflexivity].
Defined.

(** The episode line of spec section 8, as the markup of its item. *)
Example pilot_line :
  map item_of (map (fun e => encode_episode_rec (spec_episode e)) [pilot]) =
  ["<li>Pilot(season 1, episode 1)</li>"].
Proof. reflexivity. Qed.

End E2EScenarios.
